(** * Card drop monitor: store, alert windows and date handling

  A shallow embedding of the drop-tracking code of the card drop monitor
  ([card_drop_monitor.py], [desktop_notifier.py]) and the properties of
  its store and of its two alert passes.

  Conventions of the model.
  - Python [str] values are modelled as [string] (texts restricted to
    ASCII; the character classes [\d], [\w], [\s] are the ASCII ones).
  - A Python [datetime] is the record of its fields; a [timedelta] is its
    total number of microseconds.
  - The [float] stored in the [price] column is modelled by the exact
    decimal value of the token it was parsed from (a reduced rational).
  - The SQLite file is a record of its two tables and of the
    AUTOINCREMENT counters; [datetime.now()] reads a clock carried by the
    world state, one reading per call. *)

From Stdlib Require Import ZArith List String Ascii Bool Lia QArith.
From Stdlib Require Import Permutation Sorted OrdersEx.
Import ListNotations.
Close Scope Q_scope.
Local Open Scope string_scope.
Local Open Scope list_scope.
Local Open Scope Z_scope.

(** ** Python string helpers *)

Module Py.

(** [s[n:]] *)
Fixpoint skip (n : nat) (s : string) : string :=
  match n, s with
  | S n', String _ s' => skip n' s'
  | _, _ => s
  end.

(** [s[:n]] *)
Fixpoint take (n : nat) (s : string) : string :=
  match n, s with
  | S n', String a s' => String a (take n' s')
  | _, _ => EmptyString
  end.

(** [s.replace(c, '')] for a one-character [c]. *)
Fixpoint remove_char (c : ascii) (s : string) : string :=
  match s with
  | EmptyString => EmptyString
  | String a s' =>
      if Ascii.eqb a c then remove_char c s' else String a (remove_char c s')
  end.

Definition is_digit (a : ascii) : bool :=
  (Ascii.leb "0" a && Ascii.leb a "9")%bool.

Definition is_alpha (a : ascii) : bool :=
  ((Ascii.leb "a" a && Ascii.leb a "z") || (Ascii.leb "A" a && Ascii.leb a "Z"))%bool.

(** [\w] on ASCII: letters, digits and the underscore. *)
Definition is_word (a : ascii) : bool :=
  (is_alpha a || is_digit a || Ascii.eqb a "_")%bool.

(** [\s] on ASCII, for a [str] pattern: space, TAB, LF, VT, FF, CR and the
    four separators 0x1c..0x1f. *)
Definition is_space (a : ascii) : bool :=
  let n := N_of_ascii a in
  (N.eqb n 32 || (N.leb 9 n && N.leb n 13) || (N.leb 28 n && N.leb n 31))%bool.

Definition is_char (c : ascii) (a : ascii) : bool := Ascii.eqb a c.

Definition not_dash (a : ascii) : bool := negb (Ascii.eqb a "-").

(** Every character of [s] is in the class [c]. *)
Fixpoint all_chars (c : ascii -> bool) (s : string) : bool :=
  match s with
  | EmptyString => true
  | String a s' => (c a && all_chars c s')%bool
  end.

Definition digit_val (a : ascii) : Z := Z.of_N (N_of_ascii a) - 48.

(** Some character of [s] is in the class [c]. *)
Fixpoint any_char (c : ascii -> bool) (s : string) : bool :=
  match s with
  | EmptyString => false
  | String a s' => (c a || any_char c s')%bool
  end.

Definition is_upper (a : ascii) : bool :=
  (Ascii.leb "A" a && Ascii.leb a "Z")%bool.

Definition lower_char (a : ascii) : ascii :=
  if is_upper a then ascii_of_N (N_of_ascii a + 32) else a.

(** [s.lower()], on ASCII *)
Fixpoint lower (s : string) : string :=
  match s with
  | EmptyString => EmptyString
  | String a s' => String (lower_char a) (lower s')
  end.

(** [s.startswith(k)] *)
Fixpoint startswith (k s : string) : bool :=
  match k, s with
  | EmptyString, _ => true
  | String _ _, EmptyString => false
  | String a k', String b s' => (Ascii.eqb a b && startswith k' s')%bool
  end.

(** [k in s] *)
Fixpoint contains (k s : string) : bool :=
  (startswith k s
   || match s with
      | EmptyString => false
      | String _ s' => contains k s'
      end)%bool.

End Py.

(** ** The fragment of [re] the monitor uses

  Every pattern of the source is a sequence of greedy repetitions of a
  character class; the capture groups do not change what is matched. *)

Module Re.
Import Py.

Record item := Item { cls : ascii -> bool; rmin : nat; rmax : option nat }.

Definition regex := list item.

Definition exactly (c : ascii -> bool) (n : nat) : item := Item c n (Some n).
Definition between (c : ascii -> bool) (lo hi : nat) : item := Item c lo (Some hi).
Definition plus (c : ascii -> bool) : item := Item c 1 None.
Definition star (c : ascii -> bool) : item := Item c 0 None.
Definition opt (c : ascii -> bool) : item := Item c 0 (Some 1%nat).

(** Number of leading characters of [s] in the class, at most [limit]. *)
Fixpoint span (c : ascii -> bool) (limit : option nat) (s : string) : nat :=
  match s with
  | EmptyString => O
  | String a s' =>
      match limit with
      | Some O => O
      | _ => if c a then S (span c (option_map Nat.pred limit) s') else O
      end
  end.

(** Backtracking of a greedy repetition: the longest count first, then
    one character less, down to the minimum. *)
Fixpoint try_down (k : nat -> option (list nat)) (lo n : nat) : option (list nat) :=
  if Nat.ltb n lo then None
  else match k n with
       | Some ls => Some (n :: ls)
       | None => match n with
                 | O => None
                 | S n' => try_down k lo n'
                 end
       end.

(** Match [p] at the start of [s]; the result lists how many characters
    each item consumed. *)
Fixpoint match_here (p : regex) (s : string) : option (list nat) :=
  match p with
  | [] => Some []
  | it :: p' =>
      try_down (fun n => match_here p' (skip n s)) (rmin it)
               (span (cls it) (rmax it) s)
  end.

Definition total (ls : list nat) : nat := fold_right Nat.add O ls.

(** [re.search(p, s)]: the leftmost position where [p] matches; the
    result is the text from that position on and the item lengths. *)
Fixpoint search (p : regex) (s : string) : option (string * list nat) :=
  match match_here p s with
  | Some ls => Some (s, ls)
  | None => match s with
            | EmptyString => None
            | String _ s' => search p s'
            end
  end.

(** [match.group(0)] *)
Definition group0 (m : string * list nat) : string :=
  take (total (snd m)) (fst m).

(** The language of a pattern: the strings it matches as a whole. *)
Definition within (it : item) (n : nat) : Prop :=
  (rmin it <= n)%nat /\
  match rmax it with Some m => (n <= m)%nat | None => True end.

Inductive Matches : regex -> string -> Prop :=
| Matches_nil : Matches [] EmptyString
| Matches_cons (it : item) (p : regex) (s1 s2 : string) :
    all_chars (cls it) s1 = true ->
    within it (String.length s1) ->
    Matches p s2 ->
    Matches (it :: p) (s1 ++ s2)%string.

(** The text matched by the items from index [i] on (a group that spans
    the tail of the pattern). *)
Definition group_from (i : nat) (m : string * list nat) : string :=
  take (total (List.skipn i (snd m))) (skip (total (List.firstn i (snd m))) (fst m)).

End Re.

(** ** [datetime] and [timedelta] *)

Module PyDatetime.
Import Py.

(** A [datetime] object: its fields, and [tzinfo] as the UTC offset in
    microseconds ([None] for a naive value). *)
Record datetime := Datetime {
  year : Z; month : Z; day : Z;
  hour : Z; minute : Z; second : Z; microsecond : Z;
  tzinfo : option Z
}.

(** A [timedelta], as its total number of microseconds. *)
Definition timedelta := Z.

Definition US_PER_SECOND : Z := 1000000.
Definition US_PER_HOUR : Z := 3600 * US_PER_SECOND.
Definition US_PER_DAY : Z := 24 * US_PER_HOUR.

(** [timedelta(hours=h)] and [timedelta(days=d)] *)
Definition td_hours (h : Z) : timedelta := h * US_PER_HOUR.
Definition td_days (d : Z) : timedelta := d * US_PER_DAY.

(** The [.days] attribute: a [timedelta] is normalised with
    [0 <= seconds < 86400], so [days] is the floor of the quotient. *)
Definition days (td : timedelta) : Z := td / US_PER_DAY.

Definition is_leap (y : Z) : bool :=
  ((y mod 4 =? 0) && (negb (y mod 100 =? 0) || (y mod 400 =? 0)))%bool.

Definition days_in_month (y m : Z) : Z :=
  if m =? 2 then (if is_leap y then 29 else 28)
  else if (m =? 4) || (m =? 6) || (m =? 9) || (m =? 11) then 30
  else 31.

Definition days_before_year (y : Z) : Z :=
  let y1 := y - 1 in y1 * 365 + y1 / 4 - y1 / 100 + y1 / 400.

Definition days_before_month (y m : Z) : Z :=
  fold_right Z.add 0
    (map (days_in_month y) (map Z.of_nat (seq 1 (Z.to_nat (m - 1))))).

(** Proleptic Gregorian ordinal: 1 for January 1 of year 1. *)
Definition ymd2ord (y m d : Z) : Z :=
  days_before_year y + days_before_month y m + d.

(** Microseconds since midnight of day 0, as read on the wall clock. *)
Definition wall_us (dt : datetime) : Z :=
  ymd2ord (year dt) (month dt) (day dt) * US_PER_DAY
  + hour dt * US_PER_HOUR + minute dt * (60 * US_PER_SECOND)
  + second dt * US_PER_SECOND + microsecond dt.

(** [a - b] on datetimes. Mixing a naive and an aware value raises
    [TypeError], rendered as [None]. *)
Definition sub (a b : datetime) : option timedelta :=
  match tzinfo a, tzinfo b with
  | None, None => Some (wall_us a - wall_us b)
  | Some oa, Some ob => Some ((wall_us a - oa) - (wall_us b - ob))
  | _, _ => None
  end.

(** The range checks of the [datetime] constructor. *)
Definition valid_fields (y mo d h mi s us : Z) : bool :=
  ((1 <=? y) && (y <=? 9999) && (1 <=? mo) && (mo <=? 12)
   && (1 <=? d) && (d <=? days_in_month y mo)
   && (0 <=? h) && (h <=? 23) && (0 <=? mi) && (mi <=? 59)
   && (0 <=? s) && (s <=? 59) && (0 <=? us) && (us <=? 999999))%bool.

(** Exactly [n] ASCII digits at the start of [s]: their value and the
    rest of the string. *)
Fixpoint parse_digits (n : nat) (acc : Z) (s : string) : option (Z * string) :=
  match n with
  | O => Some (acc, s)
  | S n' =>
      match s with
      | String a s' =>
          if is_digit a then parse_digits n' (acc * 10 + digit_val a) s' else None
      | EmptyString => None
      end
  end.

(** One expected character. *)
Definition expect (c : ascii) (s : string) : option string :=
  match s with
  | String a s' => if Ascii.eqb a c then Some s' else None
  | EmptyString => None
  end.

(** [HH[:MM[:SS[.fff[fff]]]]], the whole of [s]. *)
Definition parse_hh_mm_ss_ff (s : string) : option (Z * Z * Z * Z) :=
  match parse_digits 2 0 s with
  | None => None
  | Some (h, EmptyString) => Some (h, 0, 0, 0)
  | Some (h, s1) =>
      match expect ":" s1 with
      | None => None
      | Some s2 =>
          match parse_digits 2 0 s2 with
          | None => None
          | Some (mi, EmptyString) => Some (h, mi, 0, 0)
          | Some (mi, s3) =>
              match expect ":" s3 with
              | None => None
              | Some s4 =>
                  match parse_digits 2 0 s4 with
                  | None => None
                  | Some (sec, EmptyString) => Some (h, mi, sec, 0)
                  | Some (sec, s5) =>
                      match expect "." s5 with
                      | None => None
                      | Some s6 =>
                          match String.length s6 with
                          | 3%nat =>
                              match parse_digits 3 0 s6 with
                              | Some (f, _) => Some (h, mi, sec, f * 1000)
                              | None => None
                              end
                          | 6%nat =>
                              match parse_digits 6 0 s6 with
                              | Some (f, _) => Some (h, mi, sec, f)
                              | None => None
                              end
                          | _ => None
                          end
                      end
                  end
              end
          end
      end
  end.

(** Split a time string at its first ['+'] or ['-']: the time text, and
    the sign and text of the offset when there is one. *)
Fixpoint split_offset (s : string) : string * option (Z * string) :=
  match s with
  | EmptyString => (EmptyString, None)
  | String a s' =>
      if Ascii.eqb a "+" then (EmptyString, Some (1, s'))
      else if Ascii.eqb a "-" then (EmptyString, Some (-1, s'))
      else let '(t, o) := split_offset s' in (String a t, o)
  end.

(** The time part of an ISO string: the four time fields and the
    offset. The offset is [+HH:MM[:SS[.ffffff]]] and must lie strictly
    between minus and plus 24 hours. *)
Definition parse_isoformat_time (s : string) : option (Z * Z * Z * Z * option Z) :=
  let '(t, o) := split_offset s in
  match parse_hh_mm_ss_ff t with
  | None => None
  | Some (h, mi, sec, us) =>
      match o with
      | None => Some (h, mi, sec, us, None)
      | Some (sign, ostr) =>
          let n := String.length ostr in
          if (Nat.eqb n 5 || Nat.eqb n 8 || Nat.eqb n 15)%bool then
            match parse_hh_mm_ss_ff ostr with
            | None => None
            | Some (oh, om, os, ous) =>
                let off := sign * (oh * US_PER_HOUR + om * (60 * US_PER_SECOND)
                                   + os * US_PER_SECOND + ous) in
                if (- US_PER_DAY <? off) && (off <? US_PER_DAY)
                then Some (h, mi, sec, us, Some off) else None
            end
          else None
      end
  end.

(** [datetime.fromisoformat], for the documented grammar
    [YYYY-MM-DD[*HH[:MM[:SS[.fff[fff]]]][+HH:MM[:SS[.ffffff]]]]]
    ([*] is any one character), the grammar of Python 3.7 to 3.10.
    [None] renders [ValueError]. From Python 3.11 on the function accepts
    further ISO 8601 spellings besides these (dates without dashes such
    as [20250301], week dates, a [Z] suffix, times without colons), which
    this grammar leaves out. *)
Definition fromisoformat (s : string) : option datetime :=
  match parse_digits 4 0 s with
  | None => None
  | Some (y, s1) =>
  match expect "-" s1 with
  | None => None
  | Some s2 =>
  match parse_digits 2 0 s2 with
  | None => None
  | Some (mo, s3) =>
  match expect "-" s3 with
  | None => None
  | Some s4 =>
  match parse_digits 2 0 s4 with
  | None => None
  | Some (d, rest) =>
      let fields :=
        match rest with
        | EmptyString => Some (0, 0, 0, 0, None)
        | String _ tstr => parse_isoformat_time tstr
        end in
      match fields with
      | None => None
      | Some (h, mi, sec, us, tz) =>
          if valid_fields y mo d h mi sec us
          then Some (Datetime y mo d h mi sec us tz)
          else None
      end
  end end end end end.

Definition digit_char (z : Z) : ascii := ascii_of_N (Z.to_N (48 + z mod 10)).

(** [z] written with exactly [n] decimal digits, zero padded. *)
Fixpoint pad (n : nat) (z : Z) : string :=
  match n with
  | O => EmptyString
  | S n' => (pad n' (z / 10) ++ String (digit_char z) EmptyString)%string
  end.

(** The offset suffix of [isoformat()]: [+HH:MM[:SS[.ffffff]]]. *)
Definition format_offset (off : Z) : string :=
  let a := Z.abs off in
  let hh := a / US_PER_HOUR in
  let mm := (a mod US_PER_HOUR) / (60 * US_PER_SECOND) in
  let ss := (a mod (60 * US_PER_SECOND)) / US_PER_SECOND in
  let us := a mod US_PER_SECOND in
  ((if (off <? 0)%Z then "-" else "+") ++ pad 2 hh ++ ":" ++ pad 2 mm
   ++ (if ((ss =? 0)%Z && (us =? 0)%Z)%bool then ""
       else ":" ++ pad 2 ss ++ (if (us =? 0)%Z then "" else "." ++ pad 6 us)))%string.

(** [dt.isoformat()]: [YYYY-MM-DDTHH:MM:SS], then [.ffffff] when the
    microsecond is not zero, then the offset of an aware value. *)
Definition isoformat (dt : datetime) : string :=
  (pad 4 (year dt) ++ "-" ++ pad 2 (month dt) ++ "-" ++ pad 2 (day dt) ++ "T"
   ++ pad 2 (hour dt) ++ ":" ++ pad 2 (minute dt) ++ ":" ++ pad 2 (second dt)
   ++ (if (microsecond dt =? 0)%Z then "" else "." ++ pad 6 (microsecond dt))
   ++ match tzinfo dt with
      | None => ""
      | Some off => format_offset off
      end)%string.

End PyDatetime.

(** ** The SQLite store *)

Module Sqlite.

(** A row of the [drops] table. [status] and [notified] are written only
    through their column defaults and through [mark_as_notified]. *)
Record drops_row := DropsRow {
  id : Z;
  product_name : string;
  retailer : string;
  url : string;
  price : option Q;
  drop_date : option string;
  drop_time : option string;
  status : string;
  discovered_date : string;
  last_checked : string;
  notified : Z
}.

(** A row of the [notifications] table. *)
Record notifications_row := NotificationsRow {
  notification_id : Z;
  drop_id : Z;
  notification_date : string;
  notification_type : string
}.

(** The database file: both tables in rowid order, and the largest rowid
    each AUTOINCREMENT column has handed out ([sqlite_sequence]). *)
Record database := Database {
  drops : list drops_row;
  drops_seq : Z;
  notifications : list notifications_row;
  notifications_seq : Z
}.

(** The state [init_database] creates on a fresh file. *)
Definition empty : database := Database [] 0 [] 0.

Inductive error := IntegrityError.

Inductive result (A : Type) :=
| Ok (a : A)
| Raise (e : error).
Arguments Ok {A} a.
Arguments Raise {A} e.

Definition max_rowid {A : Type} (rowid : A -> Z) (t : list A) : Z :=
  fold_right (fun r m => Z.max (rowid r) m) 0 t.

(** AUTOINCREMENT: one more than the largest rowid ever used. *)
Definition next_rowid {A : Type} (rowid : A -> Z) (seq : Z) (t : list A) : Z :=
  Z.max seq (max_rowid rowid t) + 1.

(** [product_name = ? AND retailer = ? AND url = ?] *)
Definition has_key (n r u : string) (row : drops_row) : bool :=
  (String.eqb (product_name row) n && String.eqb (retailer row) r
   && String.eqb (url row) u)%bool.

(** [INSERT OR REPLACE INTO drops (product_name, retailer, url, price,
    drop_date, discovered_date, last_checked) VALUES (...)].
    A NULL bound to a NOT NULL column without default aborts the
    statement with [IntegrityError]. A row that conflicts on
    [UNIQUE(product_name, retailer, url)] is deleted, and the new row is
    inserted with a fresh [id] and the column defaults for [drop_time],
    [status] and [notified]. *)
Definition insert_or_replace (d : database)
    (n r u : option string) (p : option Q) (dd : option string)
    (discovered checked : string) : result database :=
  match n, r, u with
  | Some n, Some r, Some u =>
      let new_id := next_rowid id (drops_seq d) (drops d) in
      let kept := filter (fun row => negb (has_key n r u row)) (drops d) in
      Ok (Database
            (kept ++ [DropsRow new_id n r u p dd None "upcoming" discovered checked 0])
            new_id (notifications d) (notifications_seq d))
  | _, _, _ => Raise IntegrityError
  end.

(** [UPDATE drops SET price = ?, drop_date = ?, last_checked = ?
    WHERE product_name = ? AND retailer = ? AND url = ?].
    A comparison with NULL selects no row. *)
Definition update_drop (d : database) (p : option Q) (dd : option string)
    (checked : string) (n r u : option string) : database :=
  match n, r, u with
  | Some n, Some r, Some u =>
      Database
        (map (fun row =>
                if has_key n r u row
                then DropsRow (id row) (product_name row) (retailer row) (url row)
                       p dd (drop_time row) (status row) (discovered_date row)
                       checked (notified row)
                else row) (drops d))
        (drops_seq d) (notifications d) (notifications_seq d)
  | _, _, _ => d
  end.

(** [UPDATE drops SET notified = 1 WHERE id = ?] *)
Definition set_notified (d : database) (i : Z) : database :=
  Database
    (map (fun row =>
            if id row =? i
            then DropsRow (id row) (product_name row) (retailer row) (url row)
                   (price row) (drop_date row) (drop_time row) (status row)
                   (discovered_date row) (last_checked row) 1
            else row) (drops d))
    (drops_seq d) (notifications d) (notifications_seq d).

(** [INSERT INTO notifications (drop_id, notification_date,
    notification_type) VALUES (?, ?, ?)] *)
Definition insert_notification (d : database) (i : Z) (date type : string)
    : database :=
  let new_id := next_rowid notification_id (notifications_seq d) (notifications d) in
  Database (drops d) (drops_seq d)
    (notifications d ++ [NotificationsRow new_id i date type]) new_id.

(** Order of a nullable TEXT column: NULL sorts before every text, texts
    are compared byte by byte. *)
Definition compare_text (a b : option string) : comparison :=
  match a, b with
  | None, None => Eq
  | None, Some _ => Lt
  | Some _, None => Gt
  | Some x, Some y => String_as_OT.compare x y
  end.

Definition not_gt (c : comparison) : bool :=
  match c with Gt => false | _ => true end.

Fixpoint insert_by {A : Type} (leb : A -> A -> bool) (x : A) (l : list A) : list A :=
  match l with
  | [] => [x]
  | y :: l' => if leb x y then x :: l else y :: insert_by leb x l'
  end.

(** [ORDER BY]: a sort of the selected rows. Rows that tie on every
    sort key keep their rowid order. *)
Definition order_by {A : Type} (leb : A -> A -> bool) (l : list A) : list A :=
  fold_right (insert_by leb) [] l.

(** [ORDER BY drop_date ASC, discovered_date DESC] *)
Definition by_date_then_newest (a b : drops_row) : bool :=
  match compare_text (drop_date a) (drop_date b) with
  | Lt => true
  | Gt => false
  | Eq => not_gt (String_as_OT.compare (discovered_date b) (discovered_date a))
  end.

(** [ORDER BY drop_date ASC] *)
Definition by_date (a b : drops_row) : bool :=
  not_gt (compare_text (drop_date a) (drop_date b)).

(** [SELECT ... FROM drops WHERE status = ? ORDER BY ...] *)
Definition select_by_status (d : database) (st : string)
    (leb : drops_row -> drops_row -> bool) : list drops_row :=
  order_by leb (filter (fun row => String.eqb (status row) st) (drops d)).

End Sqlite.

(** ** The world: the database file and the system clock *)

Module World.
Import PyDatetime Sqlite.

Record world := World {
  db : database;
  clock : nat -> datetime;   (* the successive readings of the clock *)
  ticks : nat                (* how many readings were taken *)
}.

Definition set_db (w : world) (d : database) : world :=
  World d (clock w) (ticks w).

(** [datetime.now()] *)
Definition now (w : world) : datetime * world :=
  (clock w (ticks w), World (db w) (clock w) (S (ticks w))).

End World.

(** ** [card_drop_monitor.py] *)

Module CardDropMonitor.
Import Py Re PyDatetime Sqlite World.

(** A scraped record, as the [search_*] methods build it. An identity
    field can be [None] (a JSON [null] in Target's data). *)
Record listing := Listing {
  l_name : option string;
  l_retailer : option string;
  l_url : option string;
  l_price : option Q;
  l_drop_date : option string
}.

(** A dictionary returned by [get_all_drops]. *)
Record drop_dict := DropDict {
  d_id : Z;
  d_name : string;
  d_retailer : string;
  d_url : string;
  d_price : option Q;
  d_drop_date : option string;
  d_drop_time : option string;
  d_status : string;
  d_discovered_date : string;
  d_notified : Z
}.

Definition to_dict (row : drops_row) : drop_dict :=
  DropDict (id row) (product_name row) (retailer row) (url row) (price row)
    (drop_date row) (drop_time row) (status row) (discovered_date row)
    (notified row).

(** Value of a decimal token [\d+\.?\d*]: numerator and power of ten. *)
Fixpoint decimal_value (s : string) (num : Z) (den : positive) (frac : bool)
    : Z * positive :=
  match s with
  | EmptyString => (num, den)
  | String a s' =>
      if is_digit a
      then decimal_value s' (num * 10 + digit_val a)
             (if frac then (den * 10)%positive else den) frac
      else decimal_value s' num den true
  end.

(** [float(token)], as the exact decimal value of the token. *)
Definition py_float (s : string) : Q :=
  let '(n, d) := decimal_value s 0 1%positive false in Qred (Qmake n d).

(** An optional [\$], then the group [\d+\.?\d*]. *)
Definition price_pattern : regex :=
  [opt (is_char "$"); plus is_digit; opt (is_char "."); star is_digit].

Definition extract_price (text : string) : option Q :=
  match search price_pattern (remove_char "," text) with
  | Some m => Some (py_float (group_from 1 m))
  | None => None
  end.

(** [(\d{1,2})/(\d{1,2})/(\d{4})] *)
Definition pattern_mdy : regex :=
  [between is_digit 1 2; exactly (is_char "/") 1; between is_digit 1 2;
   exactly (is_char "/") 1; exactly is_digit 4].

(** [(\w+)\s+(\d{1,2}),?\s+(\d{4})] *)
Definition pattern_month : regex :=
  [plus is_word; plus is_space; between is_digit 1 2; opt (is_char ",");
   plus is_space; exactly is_digit 4].

(** [(\d{4})-(\d{2})-(\d{2})] *)
Definition pattern_iso : regex :=
  [exactly is_digit 4; exactly (is_char "-") 1; exactly is_digit 2;
   exactly (is_char "-") 1; exactly is_digit 2].

Definition date_patterns : list regex :=
  [pattern_mdy; pattern_month; pattern_iso].

(** The loop of [extract_date]: the first pattern that is found wins and
    its whole match is returned. *)
Fixpoint first_match (patterns : list regex) (text : string) : option string :=
  match patterns with
  | [] => None
  | p :: rest =>
      match search p text with
      | Some m => Some (group0 m)
      | None => first_match rest text
      end
  end.

Definition extract_date (text : string) : option string :=
  first_match date_patterns text.

Definition save_drop (drop : listing) (w : world) : world :=
  let '(t1, w1) := now w in
  let '(t2, w2) := now w1 in
  match insert_or_replace (db w2) (l_name drop) (l_retailer drop) (l_url drop)
          (l_price drop) (l_drop_date drop) (isoformat t1) (isoformat t2) with
  | Ok d => set_db w2 d
  | Raise IntegrityError =>
      (* Update existing entry *)
      let '(t3, w3) := now w2 in
      set_db w3 (update_drop (db w3) (l_price drop) (l_drop_date drop)
                   (isoformat t3) (l_name drop) (l_retailer drop) (l_url drop))
  end.

Definition get_all_drops (st : string) (w : world) : list drop_dict :=
  map to_dict (select_by_status (db w) st by_date_then_newest).

Definition mark_as_notified (drop_id : Z) (w : world) : world :=
  let d1 := set_notified (db w) drop_id in
  let '(t, w1) := now w in
  set_db w1 (insert_notification d1 drop_id (isoformat t) "7-day-alert").

(** The loop of [check_for_alerts] over the dictionaries read at its
    start. An exception raised in the body ([ValueError] of
    [fromisoformat], [TypeError] of the subtraction) is swallowed and the
    loop goes on with the next drop. *)
Fixpoint alerts_loop (drops : list drop_dict) (w : world)
    : list drop_dict * world :=
  match drops with
  | [] => ([], w)
  | drop :: rest =>
      match d_drop_date drop with
      | None => alerts_loop rest w
      | Some s =>
          if (negb (String.eqb s "") && (d_notified drop =? 0))%bool then
            match fromisoformat s with
            | None => alerts_loop rest w
            | Some drop_date =>
                let '(t, w1) := now w in
                match sub drop_date t with
                | None => alerts_loop rest w1
                | Some diff =>
                    let days_until_drop := days diff in
                    if ((0 <=? days_until_drop) && (days_until_drop <=? 7))%bool then
                      let '(alerts, w2) :=
                        alerts_loop rest (mark_as_notified (d_id drop) w1) in
                      (drop :: alerts, w2)
                    else alerts_loop rest w1
                end
            end
          else alerts_loop rest w
      end
  end.

Definition check_for_alerts (w : world) : list drop_dict * world :=
  alerts_loop (get_all_drops "upcoming" w) w.

(** The loop of [run_scan] that saves every gathered record. *)
Definition save_all (all_results : list listing) (w : world) : world :=
  fold_left (fun w drop => save_drop drop w) all_results w.

(** [run_scan], with the records the four searches gather as a parameter:
    the clock is read for the first message, every record is saved, then
    the alerts are computed. *)
Definition run_scan (all_results : list listing) (w : world)
    : (list listing * list drop_dict) * world :=
  let '(_, w0) := now w in
  let '(alerts, w') := check_for_alerts (save_all all_results w0) in
  ((all_results, alerts), w').

Definition keywords : list string :=
  ["preorder"; "pre-order"; "coming soon"; "releases"; "available";
   "street date"; "launch date"; "2025"; "2026"].

Definition is_preorder_or_upcoming (name text : string) : bool :=
  let text_lower := lower (name ++ " " ++ text)%string in
  existsb (fun keyword => contains keyword text_lower) keywords.

End CardDropMonitor.

(** ** [desktop_notifier.py] *)

Module DesktopNotifier.
Import Py PyDatetime Sqlite World.

(** The four notifications, named by the title given to
    [send_notification]. *)
Inductive title :=
| DropAvailableNow     (* "Drop Available NOW!" *)
| DropStartingSoon     (* "Drop Starting Soon!" *)
| DropTomorrow         (* "Drop Tomorrow" *)
| DropNextWeek.        (* "Drop Next Week" *)

(** The chain of comparisons on [time_diff]. *)
Definition notification_for (time_diff : timedelta) : option title :=
  if ((td_hours (-1) <? time_diff) && (time_diff <? td_hours 0))%bool
  then Some DropAvailableNow
  else if ((td_hours 0 <? time_diff) && (time_diff <? td_hours 1))%bool
  then Some DropStartingSoon
  else if ((td_hours 1 <? time_diff) && (time_diff <? td_hours 24))%bool
  then Some DropTomorrow
  else if ((td_days 6 <? time_diff) && (time_diff <? td_days 7))%bool
  then Some DropNextWeek
  else None.

(** The body of the loop for one selected row: the notification that is
    sent, if any. A falsy [drop_date] is skipped; an exception is
    printed and the loop goes on. *)
Definition process_drop (t : datetime) (row : drops_row) : option title :=
  match drop_date row with
  | None => None
  | Some s =>
      if String.eqb s "" then None
      else match fromisoformat s with
           | None => None
           | Some drop_datetime =>
               match sub drop_datetime t with
               | None => None
               | Some time_diff => notification_for time_diff
               end
           end
  end.

Fixpoint notify_loop (t : datetime) (rows : list drops_row) : list (Z * title) :=
  match rows with
  | [] => []
  | row :: rest =>
      match process_drop t row with
      | Some n => (id row, n) :: notify_loop t rest
      | None => notify_loop t rest
      end
  end.

(** [check_upcoming_drops]: each id appended to [notifications_sent],
    paired with the title of the notification sent for it (the message
    text and the delivery are left out). The store is only read. *)
Definition check_upcoming_drops (w : world) : list (Z * title) * world :=
  let rows := select_by_status (db w) "upcoming" by_date in
  let '(t, w1) := now w in
  (notify_loop t rows, w1).

End DesktopNotifier.

(** ** [web_server.py] *)

Module WebServer.
Import Py PyDatetime Sqlite World CardDropMonitor.

(** The outcomes of a lookup route: the JSON body with status 200, the
    404 reply "Drop not found", or the 500 reply of [except Exception]. *)
Inductive reply (A : Type) :=
| Found (body : A)
| NotFound
| ServerError.
Arguments Found {A} body.
Arguments NotFound {A}.
Arguments ServerError {A}.

(** [GET /api/drops]: the drops with the given status, and their count. *)
Definition get_drops (st : string) (w : world) : list drop_dict * nat :=
  let drops := get_all_drops st w in
  (drops, List.length drops).

(** The query of [GET /api/drops/<int:drop_id>], for an id that SQLite
    can bind: [fetchone()] of the rows selected by [WHERE id = ?]. *)
Definition get_drop (drop_id : Z) (w : world) : reply drop_dict :=
  match filter (fun row => id row =? drop_id) (drops (db w)) with
  | row :: _ => Found (to_dict row)
  | [] => NotFound
  end.

(** The integers SQLite stores and binds: 64 bits, signed. *)
Definition sqlite_integer (z : Z) : bool :=
  ((- 2 ^ 63 <=? z) && (z <? 2 ^ 63))%bool.

(** The whole view of [GET /api/drops/<int:drop_id>]. Binding an id
    outside the 64-bit range raises [OverflowError], which the view's
    [except Exception] turns into the 500 reply. The route's [int]
    converter hands the view non-negative ids only; the function is
    given here for every integer. *)
Definition get_drop_view (drop_id : Z) (w : world) : reply drop_dict :=
  if sqlite_integer drop_id then get_drop drop_id w else ServerError.

(** A [dict] from retailer to count, in insertion order. *)
Definition counts := list (string * Z).

(** [d.get(k, default)] *)
Fixpoint dict_get (k : string) (d : counts) (default : Z) : Z :=
  match d with
  | [] => default
  | (k', v) :: d' => if String.eqb k' k then v else dict_get k d' default
  end.

(** [d[k] = v] *)
Fixpoint dict_set (k : string) (v : Z) (d : counts) : counts :=
  match d with
  | [] => [(k, v)]
  | (k', v') :: d' =>
      if String.eqb k' k then (k', v) :: d' else (k', v') :: dict_set k v d'
  end.

(** The loop of [get_stats]. *)
Definition count_by_retailer (drops : list drop_dict) : counts :=
  fold_left
    (fun by_retailer drop =>
       dict_set (d_retailer drop) (dict_get (d_retailer drop) by_retailer 0 + 1)
         by_retailer)
    drops [].

(** [GET /api/stats]: [total_drops], [by_retailer] and [last_scan]. *)
Definition get_stats (w : world) : (nat * counts * string) * world :=
  let drops := get_all_drops "upcoming" w in
  let total := List.length drops in
  let by_retailer := count_by_retailer drops in
  let '(t, w1) := now w in
  ((total, by_retailer, isoformat t), w1).

(** [GET /api/alerts]: the alerts of [check_for_alerts] and their count. *)
Definition get_alerts (w : world) : (list drop_dict * nat) * world :=
  let '(alerts, w1) := check_for_alerts w in
  ((alerts, List.length alerts), w1).

(** [POST /api/scan], for the records the scan gathers: [results_count],
    [alerts_count] and [timestamp]. *)
Definition trigger_scan (scraped : list listing) (w : world)
    : (nat * nat * string) * world :=
  let '((results, alerts), w1) := run_scan scraped w in
  let '(t, w2) := now w1 in
  ((List.length results, List.length alerts, isoformat t), w2).

End WebServer.

(** ** Notions used in the statements *)

Module Notions.
Import Py PyDatetime Sqlite World CardDropMonitor DesktopNotifier.

(** The natural key of a row. *)
Definition natural_key (row : drops_row) : string * string * string :=
  (product_name row, retailer row, url row).

(** The constraints SQLite enforces on [drops]: [id] is a primary key and
    [(product_name, retailer, url)] is unique. *)
Definition store_ok (d : database) : Prop :=
  NoDup (map id (drops d)) /\ NoDup (map natural_key (drops d)).

(** A row after [UPDATE drops SET notified = 1]. *)
Definition notify (row : drops_row) : drops_row :=
  DropsRow (id row) (product_name row) (retailer row) (url row)
    (price row) (drop_date row) (drop_time row) (status row)
    (discovered_date row) (last_checked row) 1.

Definition mem (i : Z) (ids : list Z) : bool := existsb (Z.eqb i) ids.

(** The table after the rows with an id in [ids] were marked notified. *)
Definition mark_rows (ids : list Z) (rows : list drops_row) : list drops_row :=
  map (fun row => if mem (id row) ids then notify row else row) rows.

Definition leb_prop {A : Type} (leb : A -> A -> bool) (a b : A) : Prop :=
  leb a b = true.

(** A row with its [notified] flag cleared: what is left of a row when
    the fired state is set aside. *)
Definition unmarked (row : drops_row) : drops_row :=
  DropsRow (id row) (product_name row) (retailer row) (url row)
    (price row) (drop_date row) (drop_time row) (status row)
    (discovered_date row) (last_checked row) 0.

(** The world after [n] passes of [check_upcoming_drops]. *)
Fixpoint after_passes (n : nat) (w : world) : world :=
  match n with
  | O => w
  | S n' => after_passes n' (snd (check_upcoming_drops w))
  end.

(** The world in which the loop of [check_for_alerts] reaches the
    dictionary with id [i]: the iterations for the dictionaries before it
    have run. *)
Fixpoint world_at (i : Z) (ds : list drop_dict) (w : world) : world :=
  match ds with
  | [] => w
  | d :: rest =>
      if d_id d =? i then w else world_at i rest (snd (alerts_loop [d] w))
  end.

(** The reading of the clock that [check_for_alerts] compares the drop
    with id [i] with: the one taken when its loop reaches that drop. *)
Definition reading_at (i : Z) (w : world) : datetime :=
  let wk := world_at i (get_all_drops "upcoming" w) w in
  clock wk (ticks wk).

(** Texts in byte order: a proper prefix comes first, otherwise the first
    byte that differs decides. *)
Inductive text_lt : string -> string -> Prop :=
| text_lt_prefix (b : ascii) (t : string) : text_lt EmptyString (String b t)
| text_lt_byte (a b : ascii) (s t : string) :
    (N_of_ascii a < N_of_ascii b)%N -> text_lt (String a s) (String b t)
| text_lt_rest (a : ascii) (s t : string) :
    text_lt s t -> text_lt (String a s) (String a t).

Definition text_le (x y : string) : Prop := x = y \/ text_lt x y.

(** Ascending text with NULL first. *)
Definition date_le (a b : option string) : Prop :=
  match a, b with
  | None, _ => True
  | Some _, None => False
  | Some x, Some y => text_le x y
  end.

(** The order of the dictionaries [get_all_drops] returns: ascending
    [drop_date], NULL first; among equal dates the later
    [discovered_date] first. *)
Definition listed_before (a b : drop_dict) : Prop :=
  date_le (d_drop_date a) (d_drop_date b)
  /\ (d_drop_date a = d_drop_date b ->
      text_le (d_discovered_date b) (d_discovered_date a)).

(** The order in which [check_upcoming_drops] visits the rows: ascending
    [drop_date], NULL first. *)
Definition visited_before (a b : drops_row) : Prop :=
  date_le (drop_date a) (drop_date b).

(** What the loop of [check_upcoming_drops] appends for one row. *)
Definition sent_for (t : datetime) (row : drops_row) : list (Z * title) :=
  match process_drop t row with
  | Some n => [(id row, n)]
  | None => []
  end.

(** Every [id] of the table was handed out by the AUTOINCREMENT counter. *)
Definition ids_bounded (d : database) : Prop :=
  Forall (fun row => id row <= drops_seq d) (drops d).

(** The columns no statement of the code ever writes keep their defaults,
    and [notified] is 0 or 1. *)
Definition defaults_kept (row : drops_row) : Prop :=
  status row = "upcoming" /\ drop_time row = None
  /\ (notified row = 0 \/ notified row = 1).

(** What a row of the log says: which drop, which kind of alert. *)
Definition log_entry (n : notifications_row) : Z * string :=
  (drop_id n, notification_type n).

(** What every reachable store satisfies. *)
Definition session_ok (d : database) : Prop :=
  store_ok d /\ ids_bounded d /\ Forall defaults_kept (drops d)
  /\ Forall (fun n => notification_type n = "7-day-alert") (notifications d).

(** The sum of the values of a [dict] of counts. *)
Definition sum_counts (d : WebServer.counts) : Z :=
  fold_right (fun kv total => snd kv + total) 0 d.

(** One step of the loop of [get_stats]. *)
Definition tally (acc : WebServer.counts) (drop : drop_dict) : WebServer.counts :=
  WebServer.dict_set (d_retailer drop)
    (WebServer.dict_get (d_retailer drop) acc 0 + 1) acc.

(** The upcoming rows of a retailer. *)
Definition upcoming_at (r : string) (row : drops_row) : bool :=
  (String.eqb (status row) "upcoming" && String.eqb (retailer row) r)%bool.

(** A call of one of the public operations on the store. *)
Inductive call :=
| SaveDrop (drop : listing)
| MarkAsNotified (drop_id : Z)
| CheckForAlerts
| CheckUpcomingDrops
| RunScan (scraped : list listing).

Definition run_call (c : call) (w : world) : world :=
  match c with
  | SaveDrop drop => save_drop drop w
  | MarkAsNotified drop_id => mark_as_notified drop_id w
  | CheckForAlerts => snd (check_for_alerts w)
  | CheckUpcomingDrops => snd (check_upcoming_drops w)
  | RunScan scraped => snd (run_scan scraped w)
  end.

(** A session: calls made one after the other. *)
Definition run_calls (cs : list call) (w : world) : world :=
  fold_left (fun w c => run_call c w) cs w.

End Notions.

(** ** The specification's wording, where it is compared with the code *)

Module Spec.
Import Sqlite CardDropMonitor.

(** "final price = latest non-null value": the last price that is not
    null among those of the records, in input order. *)
Fixpoint latest_non_null (prices : list (option Q)) : option Q :=
  match prices with
  | [] => None
  | p :: rest =>
      match latest_non_null rest with
      | Some q => Some q
      | None => p
      end
  end.

(** "ascending target_datetime order (nulls last)" *)
Definition compare_nulls_last (a b : option string) : comparison :=
  match a, b with
  | None, None => Eq
  | None, Some _ => Gt
  | Some _, None => Lt
  | Some x, Some y => String_as_OT.compare x y
  end.

(** "... ties broken by discovered_at ascending" *)
Definition scan_order (a b : drop_dict) : bool :=
  match compare_nulls_last (d_drop_date a) (d_drop_date b) with
  | Lt => true
  | Gt => false
  | Eq => not_gt (String_as_OT.compare (d_discovered_date a) (d_discovered_date b))
  end.

End Spec.

(** ** Concrete stores and clocks *)

Module Examples.
Import PyDatetime Sqlite World CardDropMonitor.

(** A clock that stands still. *)
Definition fixed_clock (t : datetime) : nat -> datetime := fun _ => t.

(** A clock that advances one day per reading, from 2025-02-10. *)
Definition daily_clock : nat -> datetime :=
  fun n => Datetime 2025 2 (10 + Z.of_nat n) 0 0 0 0 None.

Definition fresh (clk : nat -> datetime) : world := World empty clk 0.

(** The record of the specification's scenario, from its raw texts. *)
Definition booster (price_text date_text : string) : listing :=
  Listing (Some "Booster Box") (Some "RetailerA") (Some "http://x/1")
    (extract_price price_text) (extract_date date_text).

Definition noon_feb_22 : datetime := Datetime 2025 2 22 12 0 0 0 None.
Definition feb_26 : datetime := Datetime 2025 2 26 0 0 0 0 None.
Definition mar_2_1am : datetime := Datetime 2025 3 2 1 0 0 0 None.

End Examples.

(** * Properties *)

(** ** Strings and patterns *)

Section PatternFacts.
Import Py Re.

Lemma take_add (n m : nat) (s : string) :
  take (n + m) s = (take n s ++ take m (skip n s))%string.
Proof.
  revert s; induction n as [|n IH]; intros s; simpl.
  - reflexivity.
  - destruct s as [|a s]; simpl.
    + destruct m; reflexivity.
    + now rewrite IH.
Qed.

Lemma span_bounded (c : ascii -> bool) (m : nat) (s : string) :
  (span c (Some m) s <= m)%nat.
Proof.
  revert m; induction s as [|a s IH]; intros m; simpl; [lia|].
  destruct m as [|m]; [lia|].
  destruct (c a); [|lia].
  simpl. specialize (IH m). lia.
Qed.

Lemma take_within_span (c : ascii -> bool) (lim : option nat) (s : string) (k : nat) :
  (k <= span c lim s)%nat ->
  all_chars c (take k s) = true /\ String.length (take k s) = k.
Proof.
  revert lim k; induction s as [|a s IH]; intros lim k Hk; simpl in Hk.
  - assert (k = O) by lia; subst; simpl; auto.
  - destruct k as [|k]; [simpl; auto|].
    assert (Hc : c a = true /\ (k <= span c (option_map Nat.pred lim) s)%nat).
    { destruct lim as [[|m]|]; try lia; destruct (c a); simpl in *; try lia;
        split; auto; lia. }
    destruct Hc as [Hc Hk'].
    destruct (IH _ _ Hk') as [H1 H2].
    simpl. rewrite Hc, H1, H2. auto.
Qed.

Lemma try_down_inv (k : nat -> option (list nat)) (lo n : nat) (ls : list nat) :
  try_down k lo n = Some ls ->
  exists m ls', ls = m :: ls' /\ (lo <= m <= n)%nat /\ k m = Some ls'.
Proof.
  induction n as [|n IH]; simpl.
  - destruct (Nat.ltb_spec 0 lo); [discriminate|].
    destruct (k O) eqn:E; [|discriminate].
    intros [= <-]. exists O, l. repeat split; auto; lia.
  - destruct (Nat.ltb_spec (S n) lo); [discriminate|].
    destruct (k (S n)) eqn:E.
    + intros [= <-]. exists (S n), l. repeat split; auto; lia.
    + intros Hd. destruct (IH Hd) as (m & ls' & -> & Hm & Hk).
      exists m, ls'. repeat split; auto; lia.
Qed.

(** What [match_here] consumes is a word of the pattern's language. *)
Lemma match_here_Matches (p : regex) (s : string) (ls : list nat) :
  match_here p s = Some ls -> Matches p (take (total ls) s).
Proof.
  revert s ls; induction p as [|it p IH]; intros s ls; simpl.
  - intros [= <-]. simpl. destruct s; constructor.
  - intros H. apply try_down_inv in H.
    destruct H as (m & ls' & -> & [Hlo Hhi] & Hk).
    simpl. rewrite take_add.
    destruct (take_within_span _ _ _ _ Hhi) as [Hall Hlen].
    constructor; auto.
    split; rewrite Hlen; auto.
    destruct (rmax it) as [mx|] eqn:E; auto.
    pose proof (span_bounded (cls it) mx s). lia.
Qed.

Lemma search_inv (p : regex) (s : string) (m : string * list nat) :
  search p s = Some m -> match_here p (fst m) = Some (snd m).
Proof.
  induction s as [|a s IH]; simpl.
  - destruct (match_here p "") eqn:E; [|discriminate].
    intros [= <-]; auto.
  - destruct (match_here p (String a s)) eqn:E.
    + intros [= <-]; auto.
    + auto.
Qed.

(** [re.search] followed by [group(0)] yields a word of the language. *)
Lemma search_group0_Matches (p : regex) (s : string) (m : string * list nat) :
  search p s = Some m -> Matches p (group0 m).
Proof.
  intros H. apply search_inv in H. now apply match_here_Matches.
Qed.

Lemma all_chars_app (c : ascii -> bool) (s1 s2 : string) :
  all_chars c (s1 ++ s2) = (all_chars c s1 && all_chars c s2)%bool.
Proof.
  induction s1 as [|a s1 IH]; simpl; auto.
  rewrite IH. now rewrite andb_assoc.
Qed.

Lemma all_chars_weaken (c c' : ascii -> bool) (s : string) :
  (forall a, c a = true -> c' a = true) ->
  all_chars c s = true -> all_chars c' s = true.
Proof.
  intros Hc; induction s as [|a s IH]; simpl; auto.
  rewrite !andb_true_iff. intros [H1 H2]; auto.
Qed.

(** Each character of a matched word is in the class of some item. *)
Lemma Matches_chars (p : regex) (s : string) :
  Matches p s ->
  all_chars (fun a => existsb (fun it => cls it a) p) s = true.
Proof.
  induction 1 as [|it p s1 s2 Hall _ _ IH]; simpl; auto.
  rewrite all_chars_app, andb_true_iff; split.
  - eapply all_chars_weaken; [|exact Hall].
    intros a Ha; simpl. now rewrite Ha.
  - eapply all_chars_weaken; [|exact IH].
    intros a Ha; simpl. rewrite Ha. apply orb_true_r.
Qed.

End PatternFacts.

(** ** Dates: what [extract_date] stores and what [fromisoformat] reads *)

Section DateFacts.
Import Py Re PyDatetime CardDropMonitor.

Lemma parse_digits_inv (n : nat) (acc : Z) (s : string) (v : Z) (rest : string) :
  parse_digits n acc s = Some (v, rest) ->
  exists pre, s = (pre ++ rest)%string /\ String.length pre = n.
Proof.
  revert acc s; induction n as [|n IH]; intros acc s; simpl.
  - intros [= _ <-]. exists EmptyString; auto.
  - destruct s as [|a s]; [discriminate|].
    destruct (is_digit a); [|discriminate].
    intros H. destruct (IH _ _ H) as (pre & -> & Hlen).
    exists (String a pre); simpl; auto.
Qed.

Lemma expect_inv (c : ascii) (s rest : string) :
  expect c s = Some rest -> s = String c rest.
Proof.
  destruct s as [|a s]; simpl; [discriminate|].
  destruct (Ascii.eqb_spec a c); [|discriminate].
  now intros [= <-]; subst.
Qed.

(** A string that [fromisoformat] accepts has a dash (after the year). *)
Lemma fromisoformat_dash (s : string) (dt : datetime) :
  fromisoformat s = Some dt -> all_chars not_dash s = false.
Proof.
  unfold fromisoformat.
  destruct (parse_digits 4 0 s) as [[y s1]|] eqn:E1; [|discriminate].
  destruct (expect "-" s1) as [s2|] eqn:E2; [|discriminate].
  intros _.
  apply parse_digits_inv in E1. destruct E1 as (pre & -> & _).
  apply expect_inv in E2. subst s1.
  rewrite all_chars_app. simpl. apply andb_false_r.
Qed.

(** No word of a pattern without a dash in its classes is accepted. *)
Lemma dashless_rejected (p : regex) (s : string) :
  (forall a, existsb (fun it => cls it a) p = true -> not_dash a = true) ->
  Matches p s -> fromisoformat s = None.
Proof.
  intros Hp Hm.
  destruct (fromisoformat s) as [dt|] eqn:E; auto.
  apply fromisoformat_dash in E.
  apply Matches_chars in Hm.
  eapply all_chars_weaken in Hm; [|exact Hp].
  congruence.
Qed.

Lemma pattern_mdy_dashless (a : ascii) :
  existsb (fun it => cls it a) pattern_mdy = true -> not_dash a = true.
Proof.
  unfold not_dash. destruct (Ascii.eqb_spec a "-"); subst; auto.
Qed.

Lemma pattern_month_dashless (a : ascii) :
  existsb (fun it => cls it a) pattern_month = true -> not_dash a = true.
Proof.
  unfold not_dash. destruct (Ascii.eqb_spec a "-"); subst; auto.
Qed.

(** The three outcomes of [extract_date], by priority. *)
Lemma extract_date_cases (text s : string) :
  extract_date text = Some s ->
  (search pattern_mdy text <> None /\ Matches pattern_mdy s)
  \/ (search pattern_mdy text = None /\ search pattern_month text <> None
      /\ Matches pattern_month s)
  \/ (search pattern_mdy text = None /\ search pattern_month text = None
      /\ Matches pattern_iso s).
Proof.
  unfold extract_date, date_patterns; simpl.
  destruct (search pattern_mdy text) as [m1|] eqn:E1.
  { intros [= <-]. left. split; [discriminate|].
    eapply search_group0_Matches; eauto. }
  destruct (search pattern_month text) as [m2|] eqn:E2.
  { intros [= <-]. right; left. repeat split; [discriminate|].
    eapply search_group0_Matches; eauto. }
  destruct (search pattern_iso text) as [m3|] eqn:E3; [|discriminate].
  intros [= <-]. right; right. repeat split.
  eapply search_group0_Matches; eauto.
Qed.

End DateFacts.

(** ** Sorting *)

Section OrderBy.
Import Sqlite Notions.
Context {A : Type} (leb : A -> A -> bool).

Lemma insert_by_perm (x : A) (l : list A) :
  Permutation (insert_by leb x l) (x :: l).
Proof.
  induction l as [|y l IH]; simpl; auto.
  destruct (leb x y); auto.
  rewrite IH. apply perm_swap.
Qed.

Lemma order_by_perm (l : list A) : Permutation (order_by leb l) l.
Proof.
  induction l as [|x l IH]; simpl; auto.
  rewrite insert_by_perm. now constructor.
Qed.

Hypothesis leb_total : forall a b, leb a b = true \/ leb b a = true.
Hypothesis leb_trans :
  forall a b c, leb a b = true -> leb b c = true -> leb a c = true.

Lemma insert_by_sorted (x : A) (l : list A) :
  StronglySorted (leb_prop leb) l ->
  StronglySorted (leb_prop leb) (insert_by leb x l).
Proof.
  induction 1 as [|y l Hs IH Hall]; simpl.
  - repeat constructor.
  - destruct (leb x y) eqn:E.
    + constructor; [constructor; auto|].
      constructor; [exact E|].
      rewrite Forall_forall in *. intros z Hz.
      eapply leb_trans; [exact E|]. now apply Hall.
    + constructor; auto.
      rewrite Forall_forall in *. intros z Hz.
      apply (Permutation_in _ (insert_by_perm x l)) in Hz.
      destruct Hz as [<-|Hz]; [|now apply Hall].
      destruct (leb_total x y) as [H|H]; [congruence|exact H].
Qed.

Lemma order_by_sorted (l : list A) :
  StronglySorted (leb_prop leb) (order_by leb l).
Proof.
  induction l as [|x l IH]; simpl; [constructor|].
  now apply insert_by_sorted.
Qed.

End OrderBy.

(** Sorting commutes with a map that respects the order. *)
Lemma order_by_map {A B : Type} (f : A -> B)
  (lebA : A -> A -> bool) (lebB : B -> B -> bool) (l : list A) :
(forall a b, lebB (f a) (f b) = lebA a b) ->
Sqlite.order_by lebB (map f l) = map f (Sqlite.order_by lebA l).
Proof.
intros Hf. induction l as [|x l IH]; simpl; auto.
rewrite IH. generalize (Sqlite.order_by lebA l) as sorted.
induction sorted as [|y sorted IHs]; simpl; auto.
rewrite Hf. destruct (lebA x y); simpl; auto.
now rewrite IHs.
Qed.

(** ** The order of a nullable TEXT column *)

Section TextOrder.
Import Sqlite.

Lemma compare_string_refl (x : string) : String_as_OT.compare x x = Eq.
Proof.
  destruct (String_as_OT.compare_spec x x) as [_|H|H]; auto;
    exfalso; revert H; apply (StrictOrder_Irreflexive (R := String_as_OT.lt)).
Qed.

Lemma compare_string_flip (x y : string) :
  String_as_OT.compare y x = CompOpp (String_as_OT.compare x y).
Proof.
  destruct (String_as_OT.compare_spec x y) as [->|H|H]; simpl.
  - apply compare_string_refl.
  - destruct (String_as_OT.compare_spec y x) as [->|H'|H']; auto; exfalso.
    + revert H; apply (StrictOrder_Irreflexive (R := String_as_OT.lt)).
    + apply (StrictOrder_Irreflexive (R := String_as_OT.lt) x).
      eapply (StrictOrder_Transitive (R := String_as_OT.lt)); eauto.
  - exact H.
Qed.

Lemma compare_string_lt_trans (x y z : string) :
  String_as_OT.compare x y = Lt -> String_as_OT.compare y z = Lt ->
  String_as_OT.compare x z = Lt.
Proof. apply (StrictOrder_Transitive (R := String_as_OT.lt)). Qed.

Lemma compare_string_eq (x y : string) :
  String_as_OT.compare x y = Eq -> x = y.
Proof.
  destruct (String_as_OT.compare_spec x y) as [->|H|H]; auto;
    unfold String_as_OT.lt in H; congruence.
Qed.

Lemma compare_text_refl (a : option string) : compare_text a a = Eq.
Proof. destruct a; simpl; auto using compare_string_refl. Qed.

Lemma compare_text_flip (a b : option string) :
  compare_text b a = CompOpp (compare_text a b).
Proof. destruct a, b; simpl; auto using compare_string_flip. Qed.

Lemma compare_text_eq (a b : option string) :
  compare_text a b = Eq -> a = b.
Proof.
  destruct a, b; simpl; try discriminate; auto.
  intros H. f_equal. now apply compare_string_eq.
Qed.

Lemma compare_text_lt_trans (a b c : option string) :
  compare_text a b = Lt -> compare_text b c = Lt -> compare_text a c = Lt.
Proof.
  destruct a, b, c; simpl; try discriminate; auto.
  apply compare_string_lt_trans.
Qed.

Lemma by_date_then_newest_total (a b : drops_row) :
  by_date_then_newest a b = true \/ by_date_then_newest b a = true.
Proof.
  unfold by_date_then_newest.
  rewrite (compare_text_flip (drop_date a) (drop_date b)).
  rewrite (compare_string_flip (discovered_date b) (discovered_date a)).
  destruct (compare_text (drop_date a) (drop_date b)); simpl; auto.
  destruct (String_as_OT.compare (discovered_date b) (discovered_date a));
    simpl; auto.
Qed.

Lemma by_date_then_newest_trans (a b c : drops_row) :
  by_date_then_newest a b = true -> by_date_then_newest b c = true ->
  by_date_then_newest a c = true.
Proof.
  unfold by_date_then_newest.
  destruct (compare_text (drop_date a) (drop_date b)) eqn:Eab; try discriminate;
  destruct (compare_text (drop_date b) (drop_date c)) eqn:Ebc; try discriminate;
    intros Hab Hbc.
  - apply compare_text_eq in Eab. apply compare_text_eq in Ebc.
    rewrite Eab, Ebc, compare_text_refl.
    destruct (String_as_OT.compare (discovered_date b) (discovered_date a)) eqn:E1;
      try discriminate;
    destruct (String_as_OT.compare (discovered_date c) (discovered_date b)) eqn:E2;
      try discriminate.
    + apply compare_string_eq in E1. apply compare_string_eq in E2.
      rewrite E2, E1, compare_string_refl. reflexivity.
    + apply compare_string_eq in E1. rewrite <- E1, E2. reflexivity.
    + apply compare_string_eq in E2. rewrite E2, E1. reflexivity.
    + rewrite (compare_string_lt_trans _ _ _ E2 E1). reflexivity.
  - apply compare_text_eq in Eab. rewrite Eab, Ebc. reflexivity.
  - apply compare_text_eq in Ebc. rewrite <- Ebc, Eab. reflexivity.
  - rewrite (compare_text_lt_trans _ _ _ Eab Ebc). reflexivity.
Qed.

Lemma by_date_total (a b : drops_row) :
  by_date a b = true \/ by_date b a = true.
Proof.
  unfold by_date. rewrite (compare_text_flip (drop_date a) (drop_date b)).
  destruct (compare_text (drop_date a) (drop_date b)); simpl; auto.
Qed.

Lemma by_date_trans (a b c : drops_row) :
  by_date a b = true -> by_date b c = true -> by_date a c = true.
Proof.
  unfold by_date.
  destruct (compare_text (drop_date a) (drop_date b)) eqn:Eab; try discriminate;
  destruct (compare_text (drop_date b) (drop_date c)) eqn:Ebc; try discriminate;
    intros _ _.
  - apply compare_text_eq in Eab. apply compare_text_eq in Ebc.
    now rewrite Eab, Ebc, compare_text_refl.
  - apply compare_text_eq in Eab. now rewrite Eab, Ebc.
  - apply compare_text_eq in Ebc. now rewrite <- Ebc, Eab.
  - now rewrite (compare_text_lt_trans _ _ _ Eab Ebc).
Qed.

(** The comparison the store sorts with is the byte order of texts. *)
Lemma compare_string_text_lt (x y : string) :
  String_as_OT.compare x y = Lt -> Notions.text_lt x y.
Proof.
  revert y; induction x as [|a x IH]; intros [|b y];
    cbn [String_as_OT.compare]; try discriminate.
  - intros _. constructor.
  - destruct (Ascii_as_OT.compare_spec a b) as [E|E|E].
    + intros H. unfold Ascii_as_OT.eq in E. subst b.
      apply Notions.text_lt_rest. now apply IH.
    + intros _. apply Notions.text_lt_byte. exact E.
    + discriminate.
Qed.

Lemma compare_text_date_le (a b : option string) :
  compare_text a b <> Gt -> Notions.date_le a b.
Proof.
  destruct a as [x|], b as [y|]; simpl; auto; try (intros H; now apply H).
  destruct (String_as_OT.compare x y) eqn:E; intros H.
  - left. now apply compare_string_eq.
  - right. now apply compare_string_text_lt.
  - now destruct H.
Qed.

Lemma by_date_visited_before (a b : drops_row) :
  by_date a b = true -> Notions.visited_before a b.
Proof.
  unfold by_date, Notions.visited_before. intros H.
  apply compare_text_date_le. intros E. rewrite E in H. discriminate.
Qed.

Lemma by_date_then_newest_listed (a b : drops_row) :
  by_date_then_newest a b = true ->
  Notions.listed_before (CardDropMonitor.to_dict a) (CardDropMonitor.to_dict b).
Proof.
  unfold by_date_then_newest, Notions.listed_before. simpl.
  destruct (compare_text (drop_date a) (drop_date b)) eqn:E; intros H.
  - split.
    + apply compare_text_date_le. congruence.
    + intros _.
      destruct (String_as_OT.compare (discovered_date b) (discovered_date a)) eqn:E2.
      * left. now apply compare_string_eq.
      * right. now apply compare_string_text_lt.
      * discriminate.
  - split.
    + apply compare_text_date_le. congruence.
    + intros Heq. rewrite Heq, compare_text_refl in E. discriminate.
  - discriminate.
Qed.

Lemma StronglySorted_map {A B : Type} (f : A -> B) (R : A -> A -> Prop)
    (R' : B -> B -> Prop) (l : list A) :
  (forall a b, R a b -> R' (f a) (f b)) ->
  StronglySorted R l -> StronglySorted R' (map f l).
Proof.
  intros HR. induction 1 as [|x l Hs IH Hall]; simpl; constructor; auto.
  rewrite Forall_forall in *. intros y Hy.
  apply in_map_iff in Hy. destruct Hy as (z & <- & Hz). auto.
Qed.

End TextOrder.

(** ** The store and its constraints *)

Section StoreFacts.
Import Py PyDatetime Sqlite World CardDropMonitor Notions.

Lemma max_rowid_ge {A : Type} (rowid : A -> Z) (t : list A) (r : A) :
  In r t -> rowid r <= max_rowid rowid t.
Proof.
  induction t as [|x t IH]; simpl; [tauto|].
  intros [->|H]; [lia|]. specialize (IH H). lia.
Qed.

Lemma next_rowid_fresh (seq : Z) (rows : list drops_row) :
  ~ In (next_rowid id seq rows) (map id rows).
Proof.
  rewrite in_map_iff. intros (r & Heq & Hin).
  apply (max_rowid_ge id) in Hin. unfold next_rowid in Heq. lia.
Qed.

Lemma has_key_iff (n r u : string) (row : drops_row) :
  has_key n r u row = true <-> natural_key row = (n, r, u).
Proof.
  unfold has_key, natural_key.
  rewrite !andb_true_iff, !String.eqb_eq.
  split; [intros [[-> ->] ->]; auto | intros [= -> -> ->]; auto].
Qed.

Lemma NoDup_map_filter {A B : Type} (f : A -> B) (keep : A -> bool) (l : list A) :
  NoDup (map f l) -> NoDup (map f (filter keep l)).
Proof.
  induction l as [|x l IH]; simpl; auto.
  intros H. inversion H as [|? ? Hx Hl]; subst.
  destruct (keep x); simpl; auto.
  constructor; auto.
  rewrite in_map_iff in *. intros (y & Hy & Hin).
  apply Hx. exists y. split; auto.
  apply filter_In in Hin. tauto.
Qed.

Lemma NoDup_snoc {A : Type} (l : list A) (x : A) :
  NoDup l -> ~ In x l -> NoDup (l ++ [x]).
Proof.
  intros Hl Hx. apply NoDup_app; auto.
  - repeat constructor. simpl; tauto.
  - intros y Hy [<-|[]]. auto.
Qed.

Lemma filter_neg_none {A : Type} (keep : A -> bool) (l : list A) :
  filter keep (filter (fun x => negb (keep x)) l) = [].
Proof.
  induction l as [|x l IH]; cbn [filter]; auto.
  destruct (keep x) eqn:Ex; cbn [negb filter]; auto.
  now rewrite Ex.
Qed.

(** The rows [INSERT OR REPLACE] leaves besides the new one. *)
Lemma insert_or_replace_rows (d d' : database) (n r u : string)
    (p : option Q) (dd : option string) (t1 t2 : string) :
  insert_or_replace d (Some n) (Some r) (Some u) p dd t1 t2 = Ok d' ->
  drops d' =
    filter (fun row => negb (has_key n r u row)) (drops d)
    ++ [DropsRow (next_rowid id (drops_seq d) (drops d)) n r u p dd None
          "upcoming" t1 t2 0].
Proof. simpl. now intros [= <-]. Qed.

Lemma insert_or_replace_ok (d d' : database) (n r u : option string)
    (p : option Q) (dd : option string) (t1 t2 : string) :
  store_ok d ->
  insert_or_replace d n r u p dd t1 t2 = Ok d' ->
  store_ok d'.
Proof.
  intros [Hid Hkey] H.
  destruct n as [n|], r as [r|], u as [u|]; try discriminate.
  apply insert_or_replace_rows in H.
  unfold store_ok. rewrite H, !map_app. simpl. split.
  - apply NoDup_snoc; [now apply NoDup_map_filter|].
    intros Hin. apply (next_rowid_fresh (drops_seq d) (drops d)).
    rewrite in_map_iff in *. destruct Hin as (x & Hx & Hin).
    exists x. split; auto. apply filter_In in Hin. tauto.
  - apply NoDup_snoc; [now apply NoDup_map_filter|].
    rewrite in_map_iff. intros (x & Hx & Hin).
    apply filter_In in Hin. destruct Hin as [_ Hk].
    change (natural_key x = (n, r, u)) in Hx.
    apply (proj2 (has_key_iff n r u x)) in Hx. rewrite Hx in Hk. discriminate.
Qed.

Lemma update_drop_ok (d : database) (p : option Q) (dd : option string)
    (t : string) (n r u : option string) :
  store_ok d -> store_ok (update_drop d p dd t n r u).
Proof.
  intros [Hid Hkey].
  destruct n as [n|], r as [r|], u as [u|]; simpl; try (split; assumption).
  unfold store_ok; simpl. rewrite !map_map.
  erewrite (map_ext _ id), (map_ext _ natural_key); [split; eassumption| |];
    intros row; destruct (has_key n r u row); reflexivity.
Qed.

Lemma save_drop_ok (drop : listing) (w : world) :
  store_ok (db w) -> store_ok (db (save_drop drop w)).
Proof.
  intros H. unfold save_drop; simpl.
  destruct (insert_or_replace _ _ _ _ _ _ _ _) as [d'|[]] eqn:E; simpl.
  - eapply insert_or_replace_ok; [|exact E]. exact H.
  - now apply update_drop_ok.
Qed.

Lemma save_drop_clock (drop : listing) (w : world) :
  clock (save_drop drop w) = clock w.
Proof.
  unfold save_drop; simpl.
  destruct (insert_or_replace _ _ _ _ _ _ _ _) as [d'|[]]; reflexivity.
Qed.

Lemma save_all_ok (drops : list listing) (w : world) :
  store_ok (db w) -> store_ok (db (save_all drops w)).
Proof.
  revert w; induction drops as [|d ds IH]; intros w H; simpl; auto.
  apply IH. now apply save_drop_ok.
Qed.

(** Saving a record whose identity fields are strings leaves exactly one
    row with its key: the row just written. *)
Lemma save_drop_row (drop : listing) (w : world) (n r u : string) :
  l_name drop = Some n -> l_retailer drop = Some r -> l_url drop = Some u ->
  let new_row :=
    DropsRow (next_rowid id (drops_seq (db w)) (drops (db w))) n r u
      (l_price drop) (l_drop_date drop) None "upcoming"
      (isoformat (clock w (ticks w))) (isoformat (clock w (S (ticks w)))) 0 in
  drops (db (save_drop drop w)) =
    filter (fun row => negb (has_key n r u row)) (drops (db w)) ++ [new_row]
  /\ filter (has_key n r u) (drops (db (save_drop drop w))) = [new_row].
Proof.
  intros Hn Hr Hu new_row.
  assert (E : drops (db (save_drop drop w)) =
              filter (fun row => negb (has_key n r u row)) (drops (db w)) ++ [new_row]).
  { unfold save_drop; simpl. rewrite Hn, Hr, Hu. reflexivity. }
  split; [exact E|].
  rewrite E, filter_app. simpl.
  assert (Hk : has_key n r u new_row = true).
  { apply has_key_iff. reflexivity. }
  rewrite Hk.
  replace (filter (has_key n r u) (filter (fun row => negb (has_key n r u row)) (drops (db w))))
    with (@nil drops_row); auto.
  symmetry. apply filter_neg_none.
Qed.

(** A record with a [None] identity field changes no row. *)
Lemma save_drop_null_identity (drop : listing) (w : world) :
  l_name drop = None \/ l_retailer drop = None \/ l_url drop = None ->
  drops (db (save_drop drop w)) = drops (db w).
Proof.
  intros H. unfold save_drop; simpl.
  destruct (l_name drop), (l_retailer drop), (l_url drop); simpl; auto;
    destruct H as [H|[H|H]]; discriminate.
Qed.

Lemma filter_none {A : Type} (keep : A -> bool) (l : list A) :
  (forall x, In x l -> keep x = false) -> filter keep l = [].
Proof.
  induction l as [|x l IH]; simpl; auto.
  intros H. rewrite (H x (or_introl eq_refl)). apply IH. auto.
Qed.

Lemma filter_id_unique (l : list drops_row) (row : drops_row) :
  NoDup (map id l) -> In row l ->
  filter (fun x => id x =? id row) l = [row].
Proof.
  induction l as [|x l IH]; simpl; [tauto|].
  intros Hnd Hin. inversion Hnd as [|? ? Hx Hl]; subst.
  destruct Hin as [->|Hin].
  - rewrite Z.eqb_refl. f_equal. apply filter_none. intros y Hy.
    destruct (Z.eqb_spec (id y) (id row)) as [E|]; auto.
    exfalso. apply Hx. rewrite <- E. now apply in_map.
  - destruct (Z.eqb_spec (id x) (id row)) as [E|].
    + exfalso. apply Hx. rewrite E. now apply in_map.
    + now apply IH.
Qed.

End StoreFacts.

(** ** The loop of [check_for_alerts] *)

Section AlertFacts.
Import Py PyDatetime Sqlite World CardDropMonitor Notions.

Lemma mark_rows_nil (rows : list drops_row) : mark_rows [] rows = rows.
Proof. unfold mark_rows. simpl. apply map_id. Qed.

Lemma mark_rows_cons (i : Z) (ids : list Z) (rows : list drops_row) :
  mark_rows ids (mark_rows [i] rows) = mark_rows (i :: ids) rows.
Proof.
  unfold mark_rows. rewrite map_map. apply map_ext. intros row.
  cbn [mem existsb]. rewrite orb_false_r.
  destruct (id row =? i) eqn:E; cbn [orb].
  - cbn [notify id]. destruct (mem (id row) ids); reflexivity.
  - reflexivity.
Qed.

Lemma mark_as_notified_rows (i : Z) (w : world) :
  drops (db (mark_as_notified i w)) = mark_rows [i] (drops (db w)).
Proof.
  unfold mark_as_notified, mark_rows; simpl.
  apply map_ext. intros row. rewrite orb_false_r. reflexivity.
Qed.

Lemma mark_as_notified_clock (i : Z) (w : world) :
  clock (mark_as_notified i w) = clock w.
Proof. reflexivity. Qed.

Ltac loop_cases drop s dt diff :=
  cbn [alerts_loop];
  destruct (d_drop_date drop) as [s|] eqn:Edate;
  [ destruct (negb (String.eqb s "") && (d_notified drop =? 0))%bool eqn:Econd;
    [ destruct (fromisoformat s) as [dt|] eqn:Eparse;
      [ cbn [now];
        match goal with
        | |- context [sub dt ?t] =>
            destruct (sub dt t) as [diff|] eqn:Esub;
            [ cbv zeta;
              destruct ((0 <=? days diff) && (days diff <=? 7))%bool eqn:Ewin | ]
        end
      | ]
    | ]
  | ].

(** The pass changes nothing but the [notified] flag of the rows it
    alerts on, and it does not touch the clock. *)
Lemma alerts_loop_rows (ds : list drop_dict) (w : world) :
  drops (db (snd (alerts_loop ds w)))
    = mark_rows (map d_id (fst (alerts_loop ds w))) (drops (db w))
  /\ clock (snd (alerts_loop ds w)) = clock w.
Proof.
  revert w; induction ds as [|drop rest IH]; intros w.
  - simpl. now rewrite mark_rows_nil.
  - loop_cases drop s dt diff; try apply IH.
    + match goal with
      | |- context [alerts_loop rest ?w1] =>
          destruct (IH w1) as [H1 H2];
          destruct (alerts_loop rest w1) as [alerts w2] eqn:E
      end.
      cbn [fst snd map] in *.
      rewrite H1, H2, mark_as_notified_rows, mark_rows_cons. auto.
    + match goal with
      | |- context [alerts_loop rest ?w1] => destruct (IH w1) as [H1 H2]
      end. auto.
    + match goal with
      | |- context [alerts_loop rest ?w1] => destruct (IH w1) as [H1 H2]
      end. auto.
Qed.

(** What an alert implies. *)
Lemma alerts_loop_sound (ds : list drop_dict) (w : world) (d : drop_dict) :
  In d (fst (alerts_loop ds w)) ->
  In d ds /\ d_notified d = 0
  /\ exists s dt n diff,
       d_drop_date d = Some s /\ fromisoformat s = Some dt
       /\ sub dt (clock w n) = Some diff /\ 0 <= days diff <= 7.
Proof.
  revert w; induction ds as [|drop rest IH]; intros w.
  - simpl. tauto.
  - loop_cases drop s dt diff;
      try (intros H; apply IH in H; cbn [clock] in H;
           destruct H as (H1 & H2 & H3); repeat split; auto; now right).
    match goal with
    | |- context [alerts_loop rest ?w1] =>
        specialize (IH w1); destruct (alerts_loop rest w1) as [alerts w2] eqn:E
    end.
    cbn [fst]. intros [<-|H].
    + apply andb_true_iff in Econd. destruct Econd as [_ En].
      apply Z.eqb_eq in En.
      apply andb_true_iff in Ewin. destruct Ewin as [Hlo Hhi].
      apply Z.leb_le in Hlo, Hhi.
      split; [now left|]. split; auto.
      exists s, dt, (ticks w), diff. auto.
    + apply IH in H. destruct H as (H1 & H2 & H3).
      split; [now right|]. split; auto.
Qed.

(** When an alert is certain: the drop is not notified, its date parses,
    and it is within the window at every reading of the clock. *)
Lemma alerts_loop_complete (ds : list drop_dict) (w : world) (d : drop_dict)
    (s : string) (dt : datetime) :
  In d ds -> d_notified d = 0 ->
  d_drop_date d = Some s -> fromisoformat s = Some dt ->
  (forall n, exists diff, sub dt (clock w n) = Some diff /\ 0 <= days diff <= 7) ->
  In d (fst (alerts_loop ds w)).
Proof.
  intros Hin Hn Hs Hdt Hwin.
  revert w Hwin Hin; induction ds as [|drop rest IH]; intros w Hwin Hin.
  - destruct Hin.
  - destruct Hin as [->|Hin].
    + cbn [alerts_loop]. rewrite Hs, Hn.
      assert (Hne : String.eqb s "" = false).
      { destruct s; [discriminate|reflexivity]. }
      rewrite Hne. cbn [negb andb Z.eqb]. rewrite Hdt. cbn [now].
      destruct (Hwin (ticks w)) as (diff & -> & Hlo & Hhi). cbv zeta.
      apply Z.leb_le in Hlo, Hhi. rewrite Hlo, Hhi. cbn [andb].
      destruct (alerts_loop rest _). now left.
    + loop_cases drop s' dt' diff'; try (apply IH; auto).
      match goal with
      | |- context [alerts_loop rest ?w1] =>
          specialize (IH w1 Hwin Hin);
          destruct (alerts_loop rest w1) as [alerts w2] eqn:E
      end. now right.
Qed.

Lemma get_all_drops_in (st : string) (w : world) (d : drop_dict) :
  In d (get_all_drops st w) <->
  exists row, In row (drops (db w)) /\ status row = st /\ d = to_dict row.
Proof.
  unfold get_all_drops, select_by_status. rewrite in_map_iff.
  split.
  - intros (row & <- & Hin).
    apply (Permutation_in _ (order_by_perm _ _)) in Hin.
    apply filter_In in Hin. destruct Hin as [Hin Hst].
    apply String.eqb_eq in Hst. eauto.
  - intros (row & Hin & Hst & ->). exists row. split; auto.
    apply (Permutation_in _ (Permutation_sym (order_by_perm _ _))).
    apply filter_In. split; auto. now apply String.eqb_eq.
Qed.

(** The loop, one iteration at a time. *)
Lemma alerts_loop_cons (d : drop_dict) (rest : list drop_dict) (w : world) :
  alerts_loop (d :: rest) w
  = (fst (alerts_loop [d] w) ++ fst (alerts_loop rest (snd (alerts_loop [d] w))),
     snd (alerts_loop rest (snd (alerts_loop [d] w)))).
Proof.
  loop_cases d s dt diff; cbn [fst snd app];
    try (match goal with
         | |- context [alerts_loop rest ?w1] => destruct (alerts_loop rest w1)
         end; reflexivity).
Qed.

(** One iteration alerts on its drop or on nothing. *)
Lemma alerts_loop_one (d : drop_dict) (w : world) :
  fst (alerts_loop [d] w) = [] \/ fst (alerts_loop [d] w) = [d].
Proof. loop_cases d s dt diff; cbn [fst]; auto. Qed.

(** When one iteration alerts: the drop is not notified, its date parses,
    and its whole days from the reading then taken are between 0 and 7. *)
Lemma alerts_loop_one_iff (d : drop_dict) (w : world) :
  In d (fst (alerts_loop [d] w)) <->
  exists s dt diff,
    d_drop_date d = Some s /\ d_notified d = 0 /\ fromisoformat s = Some dt
    /\ sub dt (clock w (ticks w)) = Some diff /\ 0 <= days diff <= 7.
Proof.
  split.
  - loop_cases d s dt diff; cbn [fst In]; try tauto.
    intros _. apply andb_true_iff in Econd. destruct Econd as [_ En].
    apply Z.eqb_eq in En.
    apply andb_true_iff in Ewin. destruct Ewin as [Hlo Hhi].
    apply Z.leb_le in Hlo, Hhi.
    exists s, dt, diff. repeat split; auto.
  - intros (s & dt & diff & Hs & Hn & Hdt & Hsub & Hlo & Hhi).
    cbn [alerts_loop]. rewrite Hs, Hn.
    assert (Hne : String.eqb s "" = false).
    { destruct s; [discriminate|reflexivity]. }
    rewrite Hne. cbn [negb andb Z.eqb]. rewrite Hdt. cbn [now]. rewrite Hsub.
    cbv zeta. apply Z.leb_le in Hlo, Hhi. rewrite Hlo, Hhi. now left.
Qed.

Lemma world_at_clock (i : Z) (ds : list drop_dict) (w : world) :
  clock (world_at i ds w) = clock w.
Proof.
  revert w; induction ds as [|d rest IH]; intros w; cbn [world_at]; auto.
  destruct (d_id d =? i); auto.
  rewrite IH. apply alerts_loop_rows.
Qed.

Lemma alerts_loop_ticks (ds : list drop_dict) (w : world) :
  (ticks w <= ticks (snd (alerts_loop ds w)))%nat.
Proof.
  revert w; induction ds as [|d rest IH]; intros w; [simpl; lia|].
  loop_cases d s dt diff; try apply IH;
    match goal with
    | |- context [alerts_loop rest ?w1] =>
        specialize (IH w1); destruct (alerts_loop rest w1) as [alerts w2]
    end; cbn [snd ticks mark_as_notified now set_db] in *; lia.
Qed.

Lemma world_at_ticks (i : Z) (ds : list drop_dict) (w : world) :
  (ticks w <= ticks (world_at i ds w))%nat.
Proof.
  revert w; induction ds as [|d rest IH]; intros w; cbn [world_at]; [lia|].
  destruct (d_id d =? i); [lia|].
  specialize (IH (snd (alerts_loop [d] w))).
  pose proof (alerts_loop_ticks [d] w). lia.
Qed.

(** The reading taken for a drop is one of the readings of the clock, not
    before the pass starts. *)
Lemma reading_at_index (i : Z) (w : world) :
  exists k, (ticks w <= k)%nat /\ reading_at i w = clock w k.
Proof.
  unfold reading_at.
  exists (ticks (world_at i (get_all_drops "upcoming" w) w)). split.
  - apply world_at_ticks.
  - now rewrite world_at_clock.
Qed.

(** With ids unique, whether the loop alerts on a drop is decided by the
    iteration that reaches it. *)
Lemma alerts_loop_at (ds : list drop_dict) (w : world) (d : drop_dict) :
  NoDup (map d_id ds) -> In d ds ->
  (In d (fst (alerts_loop ds w))
   <-> In d (fst (alerts_loop [d] (world_at (d_id d) ds w)))).
Proof.
  revert w; induction ds as [|d0 rest IH]; intros w Hnd Hin; [destruct Hin|].
  inversion Hnd as [|? ? Hd0 Hrest]; subst.
  rewrite alerts_loop_cons. cbn [fst world_at]. rewrite in_app_iff.
  destruct (Z.eqb_spec (d_id d0) (d_id d)) as [E|E].
  - assert (d0 = d).
    { destruct Hin as [H|H]; auto. exfalso. apply Hd0. rewrite E. now apply in_map. }
    subst d0. split; [|auto].
    intros [H|H]; auto. exfalso.
    apply alerts_loop_sound in H. destruct H as [H _].
    apply Hd0. now apply in_map.
  - assert (Hin' : In d rest).
    { destruct Hin as [H|H]; auto. subst. now destruct E. }
    rewrite <- (IH _ Hrest Hin'). split; [|auto].
    intros [H|H]; auto. exfalso.
    destruct (alerts_loop_one d0 w) as [H0|H0]; rewrite H0 in H.
    + destruct H.
    + destruct H as [H|[]]. subst. now destruct E.
Qed.

(** The alerts come out in the order of the dictionaries read. *)
Lemma alerts_loop_sorted (R : drop_dict -> drop_dict -> Prop)
    (ds : list drop_dict) (w : world) :
  StronglySorted R ds -> StronglySorted R (fst (alerts_loop ds w)).
Proof.
  intros Hs; revert w; induction Hs as [|d0 rest Hs IH Hall]; intros w.
  - constructor.
  - rewrite alerts_loop_cons. cbn [fst].
    destruct (alerts_loop_one d0 w) as [H0|H0]; rewrite H0; cbn [app]; [apply IH|].
    constructor; [apply IH|].
    rewrite Forall_forall in *. intros d Hd.
    apply alerts_loop_sound in Hd. apply Hall. tauto.
Qed.

End AlertFacts.

(** ** The loop of [check_upcoming_drops] *)

Section DesktopFacts.
Import Py PyDatetime Sqlite World DesktopNotifier Notions.

Lemma notify_loop_in (t : datetime) (rows : list drops_row) (i : Z) (n : title) :
  In (i, n) (notify_loop t rows) <->
  exists row, In row rows /\ id row = i /\ process_drop t row = Some n.
Proof.
  induction rows as [|row rest IH]; simpl.
  - split; [tauto|]. intros (? & [] & _).
  - destruct (process_drop t row) as [m|] eqn:E; simpl; rewrite IH; split.
    + intros [[= <- <-]|(r & H1 & H2 & H3)]; eauto.
    + intros (r & [<-|H1] & H2 & H3); [left; congruence|right; eauto].
    + intros (r & H1 & H2 & H3); eauto.
    + intros (r & [<-|H1] & H2 & H3); [congruence|eauto].
Qed.

Lemma select_by_status_in (d : database) (st : string)
    (leb : drops_row -> drops_row -> bool) (row : drops_row) :
  In row (select_by_status d st leb) <-> In row (drops d) /\ status row = st.
Proof.
  unfold select_by_status. split.
  - intros H. apply (Permutation_in _ (order_by_perm _ _)) in H.
    apply filter_In in H. now rewrite String.eqb_eq in H.
  - intros [H1 H2].
    apply (Permutation_in _ (Permutation_sym (order_by_perm _ _))).
    apply filter_In. now rewrite String.eqb_eq.
Qed.

Lemma NoDup_map_inj {A B : Type} (f : A -> B) (l : list A) (x y : A) :
  NoDup (map f l) -> In x l -> In y l -> f x = f y -> x = y.
Proof.
  induction l as [|a l IH]; simpl; [tauto|].
  intros H. inversion H as [|? ? Ha Hl]; subst.
  intros [->|Hx] [->|Hy] E; auto.
  - exfalso. apply Ha. rewrite E. now apply in_map.
  - exfalso. apply Ha. rewrite <- E. now apply in_map.
Qed.

(** With [id] a primary key, the notifications sent for a stored
    upcoming row are those of its own loop body. *)
Lemma check_upcoming_drops_in (w : world) (row : drops_row) (n : title) :
  NoDup (map id (drops (db w))) ->
  In row (drops (db w)) -> status row = "upcoming" ->
  (In (id row, n) (fst (check_upcoming_drops w))
   <-> process_drop (clock w (ticks w)) row = Some n).
Proof.
  intros Hid Hin Hst. unfold check_upcoming_drops; cbn [now fst].
  rewrite notify_loop_in. split.
  - intros (r & H1 & H2 & H3).
    apply select_by_status_in in H1. destruct H1 as [H1 _].
    now rewrite <- (NoDup_map_inj id _ _ _ Hid H1 Hin H2).
  - intros H. exists row. repeat split; auto.
    now apply select_by_status_in.
Qed.

Lemma process_drop_parsed (t : datetime) (row : drops_row) (s : string)
    (dt : datetime) (diff : timedelta) :
  drop_date row = Some s -> fromisoformat s = Some dt ->
  sub dt t = Some diff ->
  process_drop t row = notification_for diff.
Proof.
  intros Hs Hdt Hsub. unfold process_drop. rewrite Hs.
  destruct s; [discriminate|]. cbn [String.eqb].
  now rewrite Hdt, Hsub.
Qed.

(** The windows of the chain of comparisons. *)
Lemma notification_for_spec (diff : timedelta) :
  (td_hours (-1) < diff < 0 -> notification_for diff = Some DropAvailableNow)
  /\ (0 < diff < td_hours 1 -> notification_for diff = Some DropStartingSoon)
  /\ (td_hours 1 < diff < td_hours 24 -> notification_for diff = Some DropTomorrow)
  /\ (td_days 6 < diff < td_days 7 -> notification_for diff = Some DropNextWeek)
  /\ (diff <= td_hours (-1) \/ td_hours 24 <= diff <= td_days 6 \/ td_days 7 <= diff ->
      notification_for diff = None).
Proof.
  unfold notification_for, td_hours, td_days, US_PER_DAY, US_PER_HOUR, US_PER_SECOND.
  repeat split; intros H;
    repeat match goal with
    | |- context [?a <? ?b] => destruct (Z.ltb_spec a b)
    end; cbn [andb]; try reflexivity; lia.
Qed.

(** The loop body reads one column only: the date. *)
Lemma notify_loop_unmarked (t : datetime) (rows : list drops_row) :
  notify_loop t (map unmarked rows) = notify_loop t rows.
Proof.
  induction rows as [|row rest IH]; simpl; auto.
  change (process_drop t (unmarked row)) with (process_drop t row).
  destruct (process_drop t row); simpl; now rewrite IH.
Qed.

Lemma filter_map_swap {A B : Type} (f : A -> B) (keep : B -> bool) (l : list A) :
  filter keep (map f l) = map f (filter (fun x => keep (f x)) l).
Proof.
  induction l as [|x l IH]; simpl; auto.
  destruct (keep (f x)); simpl; now rewrite IH.
Qed.

Lemma select_unmarked (rows : list drops_row) (st : string)
    (seq : Z) (log : list notifications_row) (lseq : Z) :
  select_by_status (Database (map unmarked rows) seq log lseq) st by_date
  = map unmarked (select_by_status (Database rows seq log lseq) st by_date).
Proof.
  unfold select_by_status; cbn [drops].
  rewrite filter_map_swap.
  apply (order_by_map unmarked by_date by_date). reflexivity.
Qed.

(** The notifier's output is a function of the rows with their [notified]
    flags set aside, of the clock and of nothing else. *)
Lemma desktop_ignores_marks (w w' : world) :
  clock w' = clock w -> ticks w' = ticks w ->
  map unmarked (drops (db w')) = map unmarked (drops (db w)) ->
  fst (check_upcoming_drops w') = fst (check_upcoming_drops w).
Proof.
  intros Hc Ht Hrows. unfold check_upcoming_drops; cbn [now fst].
  rewrite Hc, Ht.
  assert (H : forall d : database,
             notify_loop (clock w (ticks w)) (select_by_status d "upcoming" by_date)
             = notify_loop (clock w (ticks w))
                 (select_by_status (Database (map unmarked (drops d)) 0 [] 0)
                    "upcoming" by_date)).
  { intros d. rewrite select_unmarked, notify_loop_unmarked. reflexivity. }
  rewrite (H (db w')), (H (db w)). now rewrite Hrows.
Qed.

Lemma after_passes_world (n : nat) (w : world) :
  db (after_passes n w) = db w /\ clock (after_passes n w) = clock w
  /\ ticks (after_passes n w) = (ticks w + n)%nat.
Proof.
  revert w; induction n as [|n IH]; intros w; cbn [after_passes].
  - repeat split; auto; lia.
  - destruct (IH (snd (check_upcoming_drops w))) as (H1 & H2 & H3).
    rewrite H1, H2, H3. unfold check_upcoming_drops; cbn [now snd db clock ticks].
    repeat split; auto; lia.
Qed.

Lemma notify_loop_flat_map (t : datetime) (rows : list drops_row) :
  notify_loop t rows = flat_map (sent_for t) rows.
Proof.
  induction rows as [|row rest IH]; simpl; auto.
  unfold sent_for at 1. destruct (process_drop t row); simpl; now rewrite IH.
Qed.

Lemma notify_loop_filter (t : datetime) (rows : list drops_row) (i : Z) :
  filter (fun p => fst p =? i) (notify_loop t rows)
  = notify_loop t (filter (fun row => id row =? i) rows).
Proof.
  induction rows as [|row rest IH]; simpl; auto.
  destruct (process_drop t row) as [n|] eqn:E; cbn [filter fst].
  - destruct (id row =? i); cbn [notify_loop]; rewrite ?E, IH; reflexivity.
  - destruct (id row =? i); cbn [notify_loop]; rewrite ?E, IH; reflexivity.
Qed.

Lemma select_by_status_ids (d : database) (st : string)
    (leb : drops_row -> drops_row -> bool) :
  NoDup (map id (drops d)) -> NoDup (map id (select_by_status d st leb)).
Proof.
  intros H. unfold select_by_status.
  apply (Permutation_NoDup
           (l := map id (filter (fun row => String.eqb (status row) st) (drops d)))).
  - apply Permutation_map, Permutation_sym, order_by_perm.
  - now apply NoDup_map_filter.
Qed.

End DesktopFacts.

(** * The claims *)

Section Claims.
Import Py Re PyDatetime Sqlite World CardDropMonitor DesktopNotifier.
Import Notions Examples.

Lemma mem_in (i : Z) (ids : list Z) : In i ids -> mem i ids = true.
Proof.
  intros H. unfold mem. apply existsb_exists. exists i. split; auto.
  apply Z.eqb_refl.
Qed.

Lemma in_mem (i : Z) (ids : list Z) : mem i ids = true -> In i ids.
Proof.
  unfold mem. rewrite existsb_exists. intros (x & Hx & E).
  apply Z.eqb_eq in E. now subst.
Qed.

(** *** C1: a fired alert is not fired again *)

(** C1, as stated, fails on the desktop notifier. A drop is saved, the
    7-day alert fires for it and is recorded ([notified = 1], one row in
    [notifications]); two passes of [check_upcoming_drops] at the same
    clock reading then both send "Drop Next Week" for it. *)
Lemma desktop_notifier_refires :
  let w1 := save_drop (booster "$119.99" "2025-03-01") (fresh (fixed_clock noon_feb_22)) in
  let '(alerts, w2) := check_for_alerts w1 in
  let '(sent1, w3) := check_upcoming_drops w2 in
  let '(sent2, _) := check_upcoming_drops w3 in
  map d_id alerts = [1]
  /\ map notified (drops (db w2)) = [1]
  /\ map (fun n => (drop_id n, notification_type n)) (notifications (db w2))
     = [(1, "7-day-alert")]
  /\ sent1 = [(1, DropNextWeek)]
  /\ sent2 = [(1, DropNextWeek)].
Proof. vm_compute. repeat split. Qed.

(** C1 (amended): [check_for_alerts] never returns a drop whose
    [notified] flag is set, and once a pass has alerted on a drop, a
    later pass over the resulting store returns no drop with that id,
    whatever the clock reads. [check_upcoming_drops] keeps and reads no
    fired state: its passes leave the database as it is, its output is the
    same whatever the [notified] flags, the counters and the
    [notifications] table hold, and on every pass, after any number of
    earlier ones, a stored upcoming drop whose date parses gets the
    notification of the window it is in at that pass's clock reading. *)
Theorem alert_fires_once (w : world) (clk : nat -> datetime) (n : nat) :
  let first := check_for_alerts w in
  let second := check_for_alerts (World (db (snd first)) clk n) in
  (forall row, In row (drops (db w)) -> notified row <> 0 ->
               ~ In (to_dict row) (fst first))
  /\ (forall d, In d (fst first) -> ~ In (d_id d) (map d_id (fst second)))
  /\ (forall k, db (after_passes k w) = db w)
  /\ (forall w', clock w' = clock w -> ticks w' = ticks w ->
                 map unmarked (drops (db w')) = map unmarked (drops (db w)) ->
                 fst (check_upcoming_drops w') = fst (check_upcoming_drops w))
  /\ (forall k row s dt diff t,
        In row (drops (db w)) -> status row = "upcoming" ->
        drop_date row = Some s -> fromisoformat s = Some dt ->
        sub dt (clock w (ticks w + k)) = Some diff ->
        notification_for diff = Some t ->
        In (id row, t) (fst (check_upcoming_drops (after_passes k w)))).
Proof.
  cbv zeta. split; [|split; [|split; [|split]]].
  - intros row _ Hn Hin.
    apply alerts_loop_sound in Hin. destruct Hin as (_ & H0 & _).
    now apply Hn.
  - intros d Hd Hin2.
    apply in_map_iff in Hin2. destruct Hin2 as (d2 & Hid & Hd2).
    apply alerts_loop_sound in Hd2. destruct Hd2 as (Hget & Hn2 & _).
    apply get_all_drops_in in Hget. destruct Hget as (row2 & Hrow2 & _ & ->).
    cbn [db] in Hrow2.
    destruct (alerts_loop_rows (get_all_drops "upcoming" w) w) as [Hrows _].
    unfold check_for_alerts in Hrow2. rewrite Hrows in Hrow2.
    apply in_map_iff in Hrow2. destruct Hrow2 as (r & Hr & _).
    assert (Hm : mem (id r) (map d_id (fst (alerts_loop (get_all_drops "upcoming" w) w))) = true).
    { apply mem_in. apply in_map_iff. exists d. split; auto.
      rewrite <- Hid. cbn [to_dict d_id].
      destruct (mem (id r) _); subst row2; reflexivity. }
    rewrite Hm in Hr. subst row2. cbn in Hn2. discriminate.
  - intros k. apply after_passes_world.
  - intros w'. apply desktop_ignores_marks.
  - intros k row s dt diff t Hin Hst Hs Hdt Hsub Ht.
    destruct (after_passes_world k w) as (Hdb & Hclock & Hticks).
    unfold check_upcoming_drops; cbn [now fst].
    apply notify_loop_in. exists row. split; [|split; [reflexivity|]].
    + apply select_by_status_in. now rewrite Hdb.
    + rewrite Hclock, Hticks.
      now rewrite (process_drop_parsed _ _ _ _ _ Hs Hdt Hsub).
Qed.

(** *** C2: the notification windows *)

(** C2, as stated, fails three days before a drop: the desktop notifier
    is silent there, yet [check_for_alerts] produces its 7-day alert. *)
Lemma three_days_out_alerts :
  let w := save_drop (booster "$119.99" "2025-03-01") (fresh (fixed_clock feb_26)) in
  option_map (fun dt => sub dt feb_26) (fromisoformat "2025-03-01")
    = Some (Some (td_days 3))
  /\ fst (check_upcoming_drops w) = []
  /\ map d_id (fst (check_for_alerts w)) = [1].
Proof. vm_compute. repeat split. Qed.

(** The comparisons of the chain are all strict: at the drop time itself
    and exactly one hour before it, no branch is taken. *)
Lemma no_notification_between_windows :
  notification_for 0 = None /\ notification_for (td_hours 1) = None.
Proof. split; reflexivity. Qed.

(** C2 (amended): for a stored upcoming drop whose date parses, with
    [diff] the parsed date minus the clock reading, the desktop
    notifier sends exactly one notification for the drop or none: "Drop
    Available NOW!" when [-1h < diff < 0], "Drop Starting Soon!" when
    [0 < diff < 1h], "Drop Tomorrow" when [1h < diff < 24h], "Drop Next
    Week" when [6d < diff < 7d], and nothing when [diff <= -1h],
    [24h <= diff <= 6d] or [7d <= diff]. Separately, [check_for_alerts]
    alerts on the drop exactly when it is not notified and its whole days
    until the drop, counted from the clock reading taken when the loop
    reaches it, are between 0 and 7; in particular it alerts when that
    holds at every reading of the clock. *)
Theorem notification_windows (w : world) (row : drops_row) (s : string)
    (dt : datetime) (diff : timedelta) :
  NoDup (map id (drops (db w))) ->
  In row (drops (db w)) -> status row = "upcoming" ->
  drop_date row = Some s -> fromisoformat s = Some dt ->
  sub dt (clock w (ticks w)) = Some diff ->
  let sent := fst (check_upcoming_drops w) in
  (td_hours (-1) < diff < 0 -> In (id row, DropAvailableNow) sent)
  /\ (0 < diff < td_hours 1 -> In (id row, DropStartingSoon) sent)
  /\ (td_hours 1 < diff < td_hours 24 -> In (id row, DropTomorrow) sent)
  /\ (td_days 6 < diff < td_days 7 -> In (id row, DropNextWeek) sent)
  /\ (diff <= td_hours (-1) \/ td_hours 24 <= diff <= td_days 6 \/ td_days 7 <= diff ->
      forall t, ~ In (id row, t) sent)
  /\ (forall t1 t2, In (id row, t1) sent -> In (id row, t2) sent -> t1 = t2)
  /\ (notified row = 0 ->
      (forall n, exists diff', sub dt (clock w n) = Some diff' /\ 0 <= days diff' <= 7) ->
      In (to_dict row) (fst (check_for_alerts w)))
  /\ filter (fun p => fst p =? id row) sent
     = match notification_for diff with
       | Some t => [(id row, t)]
       | None => []
       end
  /\ (In (to_dict row) (fst (check_for_alerts w))
      <-> notified row = 0
          /\ exists diff',
               sub dt (reading_at (id row) w) = Some diff' /\ 0 <= days diff' <= 7)
  /\ (exists k, (ticks w <= k)%nat /\ reading_at (id row) w = clock w k).
Proof.
  intros Hid Hin Hst Hs Hdt Hsub sent.
  assert (Hsent : forall t, In (id row, t) sent <-> notification_for diff = Some t).
  { intros t. unfold sent. rewrite (check_upcoming_drops_in w row t Hid Hin Hst).
    now rewrite (process_drop_parsed _ _ _ _ _ Hs Hdt Hsub). }
  destruct (notification_for_spec diff) as (W1 & W2 & W3 & W4 & W5).
  split; [|split; [|split; [|split; [|split; [|split; [|split; [|split; [|split]]]]]]]].
  - intros H. apply Hsent; auto.
  - intros H. apply Hsent; auto.
  - intros H. apply Hsent; auto.
  - intros H. apply Hsent; auto.
  - intros H t Ht. apply Hsent in Ht. rewrite (W5 H) in Ht. discriminate.
  - intros t1 t2 H1 H2. apply Hsent in H1, H2. congruence.
  - intros Hn Hwin. unfold check_for_alerts.
    apply (alerts_loop_complete _ _ _ s dt); auto.
    apply get_all_drops_in. eauto.
  - unfold sent, check_upcoming_drops; cbn [now fst].
    rewrite notify_loop_filter.
    rewrite (filter_id_unique _ row (select_by_status_ids _ _ _ Hid)).
    + cbn [notify_loop]. rewrite (process_drop_parsed _ _ _ _ _ Hs Hdt Hsub).
      destruct (notification_for diff); reflexivity.
    + apply select_by_status_in. auto.
  - assert (Hnd : NoDup (map d_id (get_all_drops "upcoming" w))).
    { unfold get_all_drops. rewrite map_map.
      rewrite (map_ext (fun x => d_id (to_dict x)) id) by reflexivity.
      now apply select_by_status_ids. }
    assert (Hget : In (to_dict row) (get_all_drops "upcoming" w)).
    { apply get_all_drops_in. eauto. }
    unfold check_for_alerts.
    rewrite (alerts_loop_at _ w (to_dict row) Hnd Hget), alerts_loop_one_iff.
    cbn [to_dict d_id d_drop_date d_notified].
    fold (to_dict row). unfold reading_at. split.
    + intros (s' & dt' & diff' & Hs' & Hn & Hdt' & Hsub' & Hwin).
      assert (s' = s) by congruence; subst s'.
      assert (dt' = dt) by congruence; subst dt'.
      split; eauto.
    + intros (Hn & diff' & Hsub' & Hwin). exists s, dt, diff'. auto.
  - apply reading_at_index.
Qed.

Lemma notification_windows_witness :
  let w := save_drop (booster "$119.99" "2025-03-01") (fresh (fixed_clock noon_feb_22)) in
  In (1, DropNextWeek) (fst (check_upcoming_drops w))
  /\ In (DropDict 1 "Booster Box" "RetailerA" "http://x/1" (extract_price "$119.99")
           (Some "2025-03-01") None "upcoming" "2025-02-22T12:00:00" 0)
        (fst (check_for_alerts w)).
Proof.
  cbv zeta.
  pose (w := save_drop (booster "$119.99" "2025-03-01") (fresh (fixed_clock noon_feb_22))).
  pose (row := DropsRow 1 "Booster Box" "RetailerA" "http://x/1" (extract_price "$119.99")
                 (Some "2025-03-01") None "upcoming" "2025-02-22T12:00:00"
                 "2025-02-22T12:00:00" 0).
  assert (H1 : NoDup (map id (drops (db w)))).
  { vm_compute. repeat constructor. simpl. tauto. }
  assert (H2 : In row (drops (db w))) by (vm_compute; auto).
  assert (H3 : status row = "upcoming") by reflexivity.
  assert (H4 : drop_date row = Some "2025-03-01") by reflexivity.
  assert (H5 : fromisoformat "2025-03-01" = Some (Datetime 2025 3 1 0 0 0 0 None))
    by reflexivity.
  assert (H6 : sub (Datetime 2025 3 1 0 0 0 0 None) (clock w (ticks w))
               = Some (td_hours 156)) by reflexivity.
  destruct (notification_windows w row _ _ _ H1 H2 H3 H4 H5 H6)
    as (_ & _ & _ & W4 & _ & _ & _ & _ & W9 & _).
  split.
  - apply W4. vm_compute. split; reflexivity.
  - apply W9. split; [reflexivity|].
    exists (td_hours 156). split; [reflexivity|].
    vm_compute. split; discriminate.
Defined.

(** *** C3: what a re-sighting overwrites *)

(** C3, as stated, fails: a record without a price and without a date,
    saved over a drop that has both, erases both. *)
Lemma null_erases_known_values :
  let w1 := save_drop (booster "$119.99" "2025-03-01") (fresh daily_clock) in
  let w2 := save_drop (booster "TBD" "soon") w1 in
  map price (drops (db w1)) = [Some (Qmake 11999 100)]
  /\ map drop_date (drops (db w1)) = [Some "2025-03-01"]
  /\ l_price (booster "TBD" "soon") = None
  /\ l_drop_date (booster "TBD" "soon") = None
  /\ map price (drops (db w2)) = [None]
  /\ map drop_date (drops (db w2)) = [None].
Proof. vm_compute. repeat split. Qed.

(** C3 (amended): saving a record leaves exactly one row with its key,
    and that row's price and date are the record's, null or not. *)
Theorem save_drop_overwrites (w : world) (drop : listing) (n r u : string) :
  l_name drop = Some n -> l_retailer drop = Some r -> l_url drop = Some u ->
  exists row,
    filter (has_key n r u) (drops (db (save_drop drop w))) = [row]
    /\ price row = l_price drop
    /\ drop_date row = l_drop_date drop.
Proof.
  intros Hn Hr Hu.
  destruct (save_drop_row drop w n r u Hn Hr Hu) as [_ H].
  eexists. split; [exact H|]. split; reflexivity.
Qed.

Lemma save_drop_overwrites_witness :
  exists row,
    filter (has_key "Booster Box" "RetailerA" "http://x/1")
      (drops (db (save_drop (booster "TBD" "soon")
                    (save_drop (booster "$119.99" "2025-03-01") (fresh daily_clock)))))
    = [row]
    /\ price row = None /\ drop_date row = None.
Proof.
  apply (save_drop_overwrites
           (save_drop (booster "$119.99" "2025-03-01") (fresh daily_clock))
           (booster "TBD" "soon") "Booster Box" "RetailerA" "http://x/1");
    reflexivity.
Defined.

(** *** C4: the discovery timestamp *)

(** C4 on the code: saving the same record twice leaves one row, but the
    row is a new one, with a new [id] and with [discovered_date] read
    from the clock at the second save. *)
Theorem resave_rewrites_discovered_date :
  let drop := booster "$119.99" "2025-03-01" in
  let w1 := save_drop drop (fresh daily_clock) in
  let w2 := save_drop drop w1 in
  map (fun row => (id row, discovered_date row, last_checked row)) (drops (db w1))
    = [(1, "2025-02-10T00:00:00", "2025-02-11T00:00:00")]
  /\ map (fun row => (id row, discovered_date row, last_checked row)) (drops (db w2))
    = [(2, "2025-02-12T00:00:00", "2025-02-13T00:00:00")].
Proof. vm_compute. split; reflexivity. Qed.

(** The statement in the [except] branch of [save_drop] ("Update existing
    entry") is the one that keeps the identity of a row: it changes no
    [id], no [discovered_date] and no [notified] flag. *)
Lemma update_drop_keeps_discovery (d : database) (p : option Q)
    (dd : option string) (t : string) (n r u : option string) :
  map (fun row => (id row, discovered_date row, notified row))
      (drops (update_drop d p dd t n r u))
  = map (fun row => (id row, discovered_date row, notified row)) (drops d).
Proof.
  destruct n as [n|], r as [r|], u as [u|]; simpl; auto.
  rewrite map_map. apply map_ext. intros row.
  destruct (has_key n r u row); reflexivity.
Qed.

(** *** C5: uniqueness of the natural key *)

(** C5, as stated, fails on its second half: of two records with the same
    key, the first priced and the second without a number in its price
    text, the row that remains has no price, although the latest price
    that is not null is 119.99. *)
Lemma latest_non_null_price_lost :
  let w := save_all [booster "$119.99" "2025-03-01"; booster "TBD" "2025-03-01"]
             (fresh daily_clock) in
  map price (drops (db w)) = [None]
  /\ Spec.latest_non_null [extract_price "$119.99"; extract_price "TBD"]
     = Some (Qmake 11999 100).
Proof. vm_compute. split; reflexivity. Qed.

(** C5 (amended): after any sequence of saves no two rows share a
    [(product_name, retailer, url)] triple (nor an [id]), and two records
    with the same triple saved one after the other end as a single row
    whose price is that of the second record. *)
Theorem natural_key_unique (w : world) (all_results : list listing) :
  store_ok (db w) ->
  let w' := save_all all_results w in
  store_ok (db w')
  /\ forall l1 l2 n r u,
       l_name l1 = Some n -> l_retailer l1 = Some r -> l_url l1 = Some u ->
       l_name l2 = Some n -> l_retailer l2 = Some r -> l_url l2 = Some u ->
       exists row,
         filter (has_key n r u) (drops (db (save_drop l2 (save_drop l1 w')))) = [row]
         /\ price row = l_price l2.
Proof.
  intros Hok w'. split; [now apply save_all_ok|].
  intros l1 l2 n r u _ _ _ Hn Hr Hu.
  destruct (save_drop_row l2 (save_drop l1 w') n r u Hn Hr Hu) as [_ H].
  eexists. split; [exact H|reflexivity].
Qed.

Lemma natural_key_unique_witness :
  store_ok (db (save_all [booster "$119.99" "2025-03-01"; booster "$99" "2025-03-01"]
                  (fresh daily_clock))).
Proof.
  apply (natural_key_unique (fresh daily_clock)
           [booster "$119.99" "2025-03-01"; booster "$99" "2025-03-01"]).
  split; simpl; constructor.
Defined.

(** *** C6: drops in the past *)

Lemma mark_rows_ids (ids : list Z) (rows : list drops_row) :
  map id (mark_rows ids rows) = map id rows.
Proof.
  unfold mark_rows. rewrite map_map. apply map_ext.
  intros row. destruct (mem (id row) ids); reflexivity.
Qed.

Lemma mark_rows_status (ids : list Z) (rows : list drops_row) :
  map status (mark_rows ids rows) = map status rows.
Proof.
  unfold mark_rows. rewrite map_map. apply map_ext.
  intros row. destruct (mem (id row) ids); reflexivity.
Qed.

(** With [id] a primary key, a row the pass does not alert on is left
    as it is. *)
Lemma unalerted_row_kept (w : world) (row : drops_row) :
  NoDup (map id (drops (db w))) ->
  In row (drops (db w)) ->
  ~ In (to_dict row) (fst (check_for_alerts w)) ->
  In row (drops (db (snd (check_for_alerts w)))).
Proof.
  intros Hid Hin Hno. unfold check_for_alerts in *.
  destruct (alerts_loop_rows (get_all_drops "upcoming" w) w) as [Hrows _].
  rewrite Hrows. unfold mark_rows. apply in_map_iff. exists row. split; auto.
  destruct (mem (id row) _) eqn:Em; auto.
  exfalso. apply Hno.
  apply in_mem in Em. apply in_map_iff in Em. destruct Em as (d & Hd & Hal).
  pose proof Hal as Hs. apply alerts_loop_sound in Hs. destruct Hs as (Hget & _).
  apply get_all_drops_in in Hget. destruct Hget as (r & Hr & _ & ->).
  cbn [to_dict d_id] in Hd.
  now rewrite <- (NoDup_map_inj id _ _ _ Hid Hr Hin Hd).
Qed.

Lemma days_negative (diff : timedelta) : diff < 0 -> days diff < 0.
Proof.
  intros H. unfold days. apply Z.div_lt_upper_bound; [reflexivity|].
  unfold US_PER_DAY, US_PER_HOUR, US_PER_SECOND. lia.
Qed.

(** C6, as stated, fails: a drop dated 25 hours before the clock reading
    is still [upcoming] after both passes, and [get_all_drops] still
    returns it. *)
Lemma past_drop_stays_upcoming :
  let w := save_drop (booster "$119.99" "2025-03-01") (fresh (fixed_clock mar_2_1am)) in
  let '(alerts, w1) := check_for_alerts w in
  let '(sent, w2) := check_upcoming_drops w1 in
  option_map (fun dt => sub dt mar_2_1am) (fromisoformat "2025-03-01")
    = Some (Some (td_hours (-25)))
  /\ alerts = [] /\ sent = []
  /\ map status (drops (db w2)) = ["upcoming"]
  /\ map d_id (get_all_drops "upcoming" w2) = [1].
Proof. vm_compute. repeat split. Qed.

(** C6 (amended): no pass writes the [status] column. A stored upcoming
    drop whose date lies more than 24 hours before every reading of the
    clock gets no alert and no notification, is left unchanged by both
    passes, and is still returned by [get_all_drops]. *)
Theorem status_never_expires (w : world) (row : drops_row) (s : string)
    (dt : datetime) :
  NoDup (map id (drops (db w))) ->
  In row (drops (db w)) -> status row = "upcoming" ->
  drop_date row = Some s -> fromisoformat s = Some dt ->
  (forall n diff, sub dt (clock w n) = Some diff -> diff < td_hours (-24)) ->
  let alerts := fst (check_for_alerts w) in
  let w1 := snd (check_for_alerts w) in
  let sent := fst (check_upcoming_drops w1) in
  let w2 := snd (check_upcoming_drops w1) in
  ~ In (to_dict row) alerts
  /\ (forall t, ~ In (id row, t) sent)
  /\ map status (drops (db w2)) = map status (drops (db w))
  /\ In row (drops (db w2))
  /\ In (to_dict row) (get_all_drops "upcoming" w2).
Proof.
  intros Hid Hin Hst Hs Hdt Hpast alerts w1 sent w2.
  assert (Hno : ~ In (to_dict row) alerts).
  { intros Hal. apply alerts_loop_sound in Hal.
    destruct Hal as (_ & _ & s' & dt' & n & diff & Hs' & Hdt' & Hsub & Hlo & _).
    cbn [to_dict d_drop_date] in Hs'.
    assert (s' = s) by congruence; subst s'.
    assert (dt' = dt) by congruence; subst dt'.
    apply Hpast in Hsub.
    assert (diff < 0) by (unfold td_hours, US_PER_HOUR, US_PER_SECOND in Hsub; lia).
    pose proof (days_negative diff). lia. }
  assert (Hkept : In row (drops (db w1))) by now apply unalerted_row_kept.
  destruct (alerts_loop_rows (get_all_drops "upcoming" w) w) as [Hrows Hclock].
  fold (check_for_alerts w) in Hrows, Hclock. fold w1 in Hrows, Hclock.
  assert (Hdb : db w2 = db w1) by reflexivity.
  repeat split; auto.
  - intros t Ht.
    assert (Hid1 : NoDup (map id (drops (db w1)))).
    { now rewrite Hrows, mark_rows_ids. }
    apply (check_upcoming_drops_in w1 row t Hid1 Hkept Hst) in Ht.
    unfold process_drop in Ht. rewrite Hs in Ht.
    destruct (String.eqb s ""); [discriminate|].
    rewrite Hdt, Hclock in Ht.
    destruct (sub dt (clock w (ticks w1))) as [diff|] eqn:Esub; [|discriminate].
    apply Hpast in Esub.
    destruct (notification_for_spec diff) as (_ & _ & _ & _ & W5).
    rewrite W5 in Ht; [discriminate|].
    left. unfold td_hours in *. unfold US_PER_HOUR, US_PER_SECOND in *. lia.
  - rewrite Hdb, Hrows. apply mark_rows_status.
  - apply get_all_drops_in. exists row. rewrite Hdb. auto.
Qed.

Lemma status_never_expires_witness :
  let w := save_drop (booster "$119.99" "2025-03-01") (fresh (fixed_clock mar_2_1am)) in
  map status (drops (db (snd (check_upcoming_drops (snd (check_for_alerts w))))))
  = map status (drops (db w)).
Proof.
  cbv zeta.
  pose (w := save_drop (booster "$119.99" "2025-03-01") (fresh (fixed_clock mar_2_1am))).
  pose (row := DropsRow 1 "Booster Box" "RetailerA" "http://x/1" (extract_price "$119.99")
                 (Some "2025-03-01") None "upcoming" "2025-03-02T01:00:00"
                 "2025-03-02T01:00:00" 0).
  assert (H1 : NoDup (map id (drops (db w)))).
  { vm_compute. repeat constructor. simpl. tauto. }
  assert (H2 : In row (drops (db w))) by (vm_compute; auto).
  assert (H3 : status row = "upcoming") by reflexivity.
  assert (H4 : drop_date row = Some "2025-03-01") by reflexivity.
  assert (H5 : fromisoformat "2025-03-01" = Some (Datetime 2025 3 1 0 0 0 0 None))
    by reflexivity.
  assert (H6 : forall n diff,
             sub (Datetime 2025 3 1 0 0 0 0 None) (clock w n) = Some diff ->
             diff < td_hours (-24)).
  { intros n diff H. vm_compute in H. injection H as <-. reflexivity. }
  exact (proj1 (proj2 (proj2 (status_never_expires w row _ _ H1 H2 H3 H4 H5 H6)))).
Defined.

(** *** C7: a re-sighting replaces the row *)

(** C7: for a record whose key is already stored, [INSERT OR REPLACE]
    succeeds, so the [except] branch is not taken (and the clock is read
    twice, not three times). The old row is gone; the one row with the
    key is new: a fresh [id], [discovered_date] read from the clock,
    [status] and [notified] at their defaults. The drop is thereby
    re-armed: if its date parses and lies within the alert window, the
    next [check_for_alerts] returns it. *)
Theorem resave_replaces_row (w : world) (drop : listing) (row : drops_row) :
  In row (drops (db w)) ->
  l_name drop = Some (product_name row) ->
  l_retailer drop = Some (retailer row) ->
  l_url drop = Some (url row) ->
  (exists d,
      insert_or_replace (db w) (l_name drop) (l_retailer drop) (l_url drop)
        (l_price drop) (l_drop_date drop)
        (isoformat (clock w (ticks w))) (isoformat (clock w (S (ticks w)))) = Ok d
      /\ db (save_drop drop w) = d)
  /\ ticks (save_drop drop w) = S (S (ticks w))
  /\ ~ In row (drops (db (save_drop drop w)))
  /\ exists new,
       filter (has_key (product_name row) (retailer row) (url row))
         (drops (db (save_drop drop w))) = [new]
       /\ ~ In (id new) (map id (drops (db w)))
       /\ discovered_date new = isoformat (clock w (ticks w))
       /\ status new = "upcoming"
       /\ notified new = 0
       /\ forall s dt,
            l_drop_date drop = Some s -> fromisoformat s = Some dt ->
            (forall n, exists diff,
                sub dt (clock w n) = Some diff /\ 0 <= days diff <= 7) ->
            In (to_dict new) (fst (check_for_alerts (save_drop drop w))).
Proof.
  intros Hin Hn Hr Hu.
  destruct (save_drop_row drop w _ _ _ Hn Hr Hu) as [Hrows Hone].
  cbv zeta in Hrows, Hone.
  set (new := DropsRow (next_rowid id (drops_seq (db w)) (drops (db w)))
                (product_name row) (retailer row) (url row) (l_price drop)
                (l_drop_date drop) None "upcoming" (isoformat (clock w (ticks w)))
                (isoformat (clock w (S (ticks w)))) 0) in *.
  assert (Hfresh : ~ In (id new) (map id (drops (db w)))).
  { apply next_rowid_fresh. }
  split; [|split; [|split]].
  - unfold save_drop; cbn [now db clock ticks].
    rewrite Hn, Hr, Hu. cbn [insert_or_replace]. eexists. split; reflexivity.
  - unfold save_drop; cbn [now db clock ticks].
    rewrite Hn, Hr, Hu. reflexivity.
  - intros Hrow.
    assert (Hk : In row (filter (has_key (product_name row) (retailer row) (url row))
                           (drops (db (save_drop drop w))))).
    { apply filter_In. split; auto. apply has_key_iff. reflexivity. }
    rewrite Hone in Hk. destruct Hk as [Heq|[]].
    apply Hfresh. rewrite Heq. now apply in_map.
  - exists new.
    split; [exact Hone|]. split; [exact Hfresh|].
    split; [reflexivity|]. split; [reflexivity|]. split; [reflexivity|].
    intros s dt Hs Hdt Hwin. unfold check_for_alerts.
    apply (alerts_loop_complete _ _ _ s dt).
    + apply get_all_drops_in. exists new.
      split; [|split; reflexivity].
      rewrite Hrows. apply in_or_app. right. now left.
    + reflexivity.
    + exact Hs.
    + exact Hdt.
    + now rewrite save_drop_clock.
Qed.

Lemma resave_replaces_row_witness :
  let drop := booster "$119.99" "2025-03-01" in
  let w := snd (check_for_alerts (save_drop drop (fresh (fixed_clock noon_feb_22)))) in
  map (fun row => (id row, notified row)) (drops (db w)) = [(1, 1)]
  /\ ticks (save_drop drop w) = S (S (ticks w)).
Proof.
  cbv zeta. split; [reflexivity|].
  pose (drop := booster "$119.99" "2025-03-01").
  pose (w := snd (check_for_alerts (save_drop drop (fresh (fixed_clock noon_feb_22))))).
  pose (row := DropsRow 1 "Booster Box" "RetailerA" "http://x/1" (extract_price "$119.99")
                 (Some "2025-03-01") None "upcoming" "2025-02-22T12:00:00"
                 "2025-02-22T12:00:00" 1).
  assert (H1 : In row (drops (db w))) by (vm_compute; auto).
  exact (proj1 (proj2 (resave_replaces_row w drop row H1 eq_refl eq_refl eq_refl))).
Defined.

(** *** C8: which stored dates can alert *)

(** C8: let [s] be what [extract_date] returns for a text, stored as the
    date of a row. If the pass alerts on the row, [s] is a word of the
    ISO pattern. If [s] was captured by one of the first two patterns,
    [fromisoformat] rejects it, the row gets no alert, and the pass
    leaves the row as it is. *)
Theorem only_iso_dates_alert (text s : string) (w : world) (row : drops_row) :
  extract_date text = Some s ->
  NoDup (map id (drops (db w))) ->
  In row (drops (db w)) ->
  drop_date row = Some s ->
  (In (to_dict row) (fst (check_for_alerts w)) -> Matches pattern_iso s)
  /\ (search pattern_mdy text <> None \/ search pattern_month text <> None ->
      fromisoformat s = None
      /\ ~ In (to_dict row) (fst (check_for_alerts w))
      /\ In row (drops (db (snd (check_for_alerts w))))).
Proof.
  intros Hx Hid Hin Hs.
  assert (Hrej : fromisoformat s = None ->
                 ~ In (to_dict row) (fst (check_for_alerts w))).
  { intros Hnone Hal. apply alerts_loop_sound in Hal.
    destruct Hal as (_ & _ & s' & dt' & _ & _ & Hs' & Hdt' & _).
    cbn [to_dict d_drop_date] in Hs'. congruence. }
  destruct (extract_date_cases text s Hx)
    as [[H1 Hm]|[(H1 & H2 & Hm)|(H1 & H2 & Hm)]].
  - assert (Hnone : fromisoformat s = None).
    { eapply dashless_rejected; [apply pattern_mdy_dashless|exact Hm]. }
    split; [intros Hal; now apply Hrej in Hal|].
    intros _. repeat split; auto. apply unalerted_row_kept; auto.
  - assert (Hnone : fromisoformat s = None).
    { eapply dashless_rejected; [apply pattern_month_dashless|exact Hm]. }
    split; [intros Hal; now apply Hrej in Hal|].
    intros _. repeat split; auto. apply unalerted_row_kept; auto.
  - split; [auto|]. intros [H|H]; contradiction.
Qed.

Lemma only_iso_dates_alert_witness :
  let w := save_drop (booster "$119.99" "Releases March 1, 2025 (2025-03-01)")
             (fresh (fixed_clock noon_feb_22)) in
  fromisoformat "March 1, 2025" = None
  /\ fst (check_for_alerts w) = []
  /\ map notified (drops (db (snd (check_for_alerts w)))) = [0].
Proof.
  cbv zeta.
  pose (w := save_drop (booster "$119.99" "Releases March 1, 2025 (2025-03-01)")
               (fresh (fixed_clock noon_feb_22))).
  pose (row := DropsRow 1 "Booster Box" "RetailerA" "http://x/1" (extract_price "$119.99")
                 (Some "March 1, 2025") None "upcoming" "2025-02-22T12:00:00"
                 "2025-02-22T12:00:00" 0).
  assert (H0 : extract_date "Releases March 1, 2025 (2025-03-01)" = Some "March 1, 2025")
    by reflexivity.
  assert (H1 : NoDup (map id (drops (db w)))).
  { vm_compute. repeat constructor. simpl. tauto. }
  assert (H2 : In row (drops (db w))) by (vm_compute; auto).
  assert (H3 : drop_date row = Some "March 1, 2025") by reflexivity.
  destruct (only_iso_dates_alert _ _ w row H0 H1 H2 H3) as [_ H].
  destruct H as (Hnone & _ & _).
  - right. vm_compute. discriminate.
  - split; [exact Hnone|]. split; reflexivity.
Defined.

(** *** C9: records without an identity *)

(** C9, as stated, fails: a record whose name and url are empty strings
    is stored. *)
Lemma empty_identity_is_stored :
  let drop := Listing (Some "") (Some "RetailerA") (Some "") None None in
  map natural_key (drops (db (save_drop drop (fresh daily_clock))))
  = [("", "RetailerA", "")].
Proof. reflexivity. Qed.

(** C9 (amended): [save_drop] checks no string for emptiness. A record
    whose three identity fields are strings, empty or not, is stored
    under its key; only a record with a [None] identity field is turned
    away, by the NOT NULL constraint, and then no row changes. *)
Theorem only_null_identity_rejected (w : world) (drop : listing) :
  (forall n r u,
      l_name drop = Some n -> l_retailer drop = Some r -> l_url drop = Some u ->
      exists row,
        In row (drops (db (save_drop drop w))) /\ natural_key row = (n, r, u))
  /\ (l_name drop = None \/ l_retailer drop = None \/ l_url drop = None ->
      drops (db (save_drop drop w)) = drops (db w)).
Proof.
  split.
  - intros n r u Hn Hr Hu.
    destruct (save_drop_row drop w n r u Hn Hr Hu) as [Hrows _].
    eexists. split.
    + rewrite Hrows. apply in_or_app. right. left. reflexivity.
    + reflexivity.
  - apply save_drop_null_identity.
Qed.

(** *** C10: the order of [get_all_drops] *)

(** C10, as stated, fails: of three upcoming drops, one without a date
    (id 1) and two with the same date (id 2 discovered before id 3),
    [get_all_drops] lists the undated one first and the later discovery
    before the earlier one; the order of the claim is the reverse. *)
Lemma undated_first_newest_first :
  let other := Listing (Some "Elite Trainer Box") (Some "RetailerB") (Some "http://y/2")
                 None (extract_date "2025-03-01") in
  let third := Listing (Some "Tin") (Some "RetailerC") (Some "http://z/3")
                 None (extract_date "2025-03-01") in
  let w := save_all [booster "$119.99" "TBD"; other; third] (fresh daily_clock) in
  map (fun d => (d_id d, d_drop_date d, d_discovered_date d)) (get_all_drops "upcoming" w)
    = [(1, None, "2025-02-10T00:00:00");
       (3, Some "2025-03-01", "2025-02-14T00:00:00");
       (2, Some "2025-03-01", "2025-02-12T00:00:00")]
  /\ map d_id (order_by Spec.scan_order (get_all_drops "upcoming" w)) = [2; 3; 1].
Proof. vm_compute. split; reflexivity. Qed.

(** C10 (amended): [get_all_drops] returns exactly the rows with the
    given status, ordered by [drop_date] as text, ascending with NULL
    first, and among equal dates by [discovered_date] descending.
    [check_for_alerts] yields its alerts, all taken from the upcoming
    drops, in that same order. [check_upcoming_drops] visits exactly the
    upcoming rows in ascending order of [drop_date] as text, NULL first,
    and sends its notifications in the order of its visit. *)
Theorem get_all_drops_order (st : string) (w : world) :
  (exists rows,
      get_all_drops st w = map to_dict rows
      /\ Permutation rows (filter (fun row => String.eqb (status row) st) (drops (db w)))
      /\ StronglySorted (leb_prop by_date_then_newest) rows)
  /\ StronglySorted listed_before (get_all_drops st w)
  /\ incl (fst (check_for_alerts w)) (get_all_drops "upcoming" w)
  /\ StronglySorted listed_before (fst (check_for_alerts w))
  /\ exists visited,
       Permutation visited
         (filter (fun row => String.eqb (status row) "upcoming") (drops (db w)))
       /\ StronglySorted visited_before visited
       /\ fst (check_upcoming_drops w)
          = flat_map (sent_for (clock w (ticks w))) visited.
Proof.
  assert (Hsorted : forall st',
             StronglySorted (leb_prop by_date_then_newest)
               (select_by_status (db w) st' by_date_then_newest)).
  { intros st'. apply order_by_sorted.
    - apply by_date_then_newest_total.
    - apply by_date_then_newest_trans. }
  assert (Hlisted : forall st', StronglySorted listed_before (get_all_drops st' w)).
  { intros st'. unfold get_all_drops.
    apply (StronglySorted_map to_dict (leb_prop by_date_then_newest)); auto.
    intros a b. apply by_date_then_newest_listed. }
  split; [|split; [|split; [|split]]].
  - exists (select_by_status (db w) st by_date_then_newest).
    split; [reflexivity|]. split; [apply order_by_perm|apply Hsorted].
  - apply Hlisted.
  - intros d Hd. apply alerts_loop_sound in Hd. tauto.
  - unfold check_for_alerts. apply alerts_loop_sorted. apply Hlisted.
  - exists (select_by_status (db w) "upcoming" by_date).
    split; [apply order_by_perm|]. split.
    + rewrite <- (map_id (select_by_status (db w) "upcoming" by_date)).
      apply (StronglySorted_map (fun row => row) (leb_prop by_date)).
      * intros a b. apply by_date_visited_before.
      * apply order_by_sorted; [apply by_date_total|apply by_date_trans].
    + unfold check_upcoming_drops; cbn [now fst]. apply notify_loop_flat_map.
Qed.

End Claims.

(** * Further properties of the code *)

(** ** More on patterns *)

Section MorePatternFacts.
Import Py Re.

Lemma take_skip (n : nat) (s : string) : s = (take n s ++ skip n s)%string.
Proof.
  revert s; induction n as [|n IH]; intros s; simpl; auto.
  destruct s as [|a s]; simpl; auto. now rewrite <- IH.
Qed.

Lemma append_assoc (a b c : string) :
  ((a ++ b) ++ c = a ++ (b ++ c))%string.
Proof. induction a as [|x a IH]; simpl; auto. now rewrite IH. Qed.

Lemma append_nil_r (a : string) : (a ++ "")%string = a.
Proof. induction a as [|x a IH]; simpl; auto. now rewrite IH. Qed.

Lemma append_length (a b : string) :
  String.length (a ++ b) = (String.length a + String.length b)%nat.
Proof. induction a as [|x a IH]; simpl; auto. Qed.

Lemma take_all (s : string) : take (String.length s) s = s.
Proof. induction s as [|a s IH]; simpl; auto. now rewrite IH. Qed.

Lemma skip_app (s1 s2 : string) : skip (String.length s1) (s1 ++ s2) = s2.
Proof. induction s1 as [|a s1 IH]; simpl; auto. Qed.

Lemma any_char_app (c : ascii -> bool) (s1 s2 : string) :
  any_char c (s1 ++ s2) = (any_char c s1 || any_char c s2)%bool.
Proof.
  induction s1 as [|a s1 IH]; simpl; auto.
  rewrite IH. now rewrite orb_assoc.
Qed.

Lemma all_then_any (c : ascii -> bool) (s : string) :
  all_chars c s = true -> (1 <= String.length s)%nat -> any_char c s = true.
Proof.
  destruct s as [|a s]; simpl; [lia|].
  rewrite andb_true_iff. intros [-> _] _. reflexivity.
Qed.

Lemma all_excludes_any (c c' : ascii -> bool) (s : string) :
  (forall a, c a = true -> c' a = false) ->
  all_chars c s = true -> any_char c' s = false.
Proof.
  intros Hc; induction s as [|a s IH]; simpl; auto.
  rewrite andb_true_iff. intros [H1 H2]. now rewrite (Hc a H1), IH.
Qed.

(** [re.search] returns a match inside the text. *)
Lemma search_suffix (p : regex) (s : string) (m : string * list nat) :
  search p s = Some m -> exists pre, s = (pre ++ fst m)%string.
Proof.
  induction s as [|a s IH]; simpl.
  - destruct (match_here p ""); [|discriminate].
    intros [= <-]. now exists EmptyString.
  - destruct (match_here p (String a s)).
    + intros [= <-]. now exists EmptyString.
    + intros H. destruct (IH H) as [pre ->]. now exists (String a pre).
Qed.

Lemma search_group0_inside (p : regex) (s : string) (m : string * list nat) :
  search p s = Some m ->
  exists pre post, s = (pre ++ group0 m ++ post)%string.
Proof.
  intros H. destruct (search_suffix p s m H) as [pre ->].
  exists pre, (skip (total (snd m)) (fst m)).
  unfold group0. now rewrite <- take_skip.
Qed.

(** An item that must consume a character leaves one of its class in
    every word of the pattern. *)
Lemma Matches_needs (p : regex) (s : string) (it : item) :
  Matches p s -> In it p -> (1 <= rmin it)%nat -> any_char (cls it) s = true.
Proof.
  induction 1 as [|it' p s1 s2 Hall [Hlo _] _ IH]; simpl; [tauto|].
  intros [->|Hin] Hmin; rewrite any_char_app.
  - rewrite (all_then_any _ _ Hall); [reflexivity|lia].
  - rewrite (IH Hin Hmin). apply orb_true_r.
Qed.

Lemma try_down_top (k : nat -> option (list nat)) (lo n : nat) (ls : list nat) :
  (lo <= n)%nat -> k n = Some ls -> try_down k lo n = Some (n :: ls).
Proof.
  intros Hlo Hk. destruct n as [|n]; simpl.
  - destruct (Nat.ltb_spec 0 lo); [lia|]. now rewrite Hk.
  - destruct (Nat.ltb_spec (S n) lo); [lia|]. now rewrite Hk.
Qed.

Lemma try_down_below (k : nat -> option (list nat)) (lo n : nat) :
  (n < lo)%nat -> try_down k lo n = None.
Proof.
  intros H. destruct n as [|n]; simpl.
  - destruct (Nat.ltb_spec 0 lo); [reflexivity|lia].
  - destruct (Nat.ltb_spec (S n) lo); [reflexivity|lia].
Qed.

Lemma try_down_total (k : nat -> option (list nat)) (n : nat) :
  (forall m, k m <> None) -> try_down k 0 n <> None.
Proof.
  intros Hk. destruct (k n) as [ls|] eqn:E; [|now apply Hk in E].
  rewrite (try_down_top k 0 n ls); [discriminate|lia|exact E].
Qed.

Lemma try_down_exact (k : nat -> option (list nat)) (n : nat) :
  try_down k n n = option_map (cons n) (k n).
Proof.
  destruct (k n) as [ls|] eqn:E; simpl.
  - apply try_down_top; auto.
  - destruct n as [|n]; simpl; rewrite ?Nat.ltb_irrefl, E; auto.
    apply try_down_below. lia.
Qed.

(** A pattern whose items are all optional matches at every position. *)
Lemma optional_items_match (p : regex) (s : string) :
  Forall (fun it => rmin it = O) p -> match_here p s <> None.
Proof.
  intros Hp; revert s; induction Hp as [|it p Hit Hp IH]; intros s; simpl.
  - discriminate.
  - rewrite Hit. apply try_down_total. intros m. apply IH.
Qed.

(** A greedy item matches with its longest run when the rest matches
    after it. *)
Lemma match_here_longest (it : item) (p : regex) (s : string) (ls : list nat) :
  (rmin it <= span (cls it) (rmax it) s)%nat ->
  match_here p (skip (span (cls it) (rmax it) s) s) = Some ls ->
  match_here (it :: p) s = Some (span (cls it) (rmax it) s :: ls).
Proof. intros Hlo Hk. simpl. now apply try_down_top. Qed.

Lemma span_exact (c : ascii -> bool) (s1 s2 : string) :
  all_chars c s1 = true ->
  span c (Some (String.length s1)) (s1 ++ s2) = String.length s1.
Proof.
  induction s1 as [|a s1 IH]; simpl.
  - intros _. destruct s2; reflexivity.
  - rewrite andb_true_iff. intros [-> H]. simpl. now rewrite IH.
Qed.

(** An item with a fixed count either takes exactly that many characters
    or fails. *)
Lemma match_here_exactly (c : ascii -> bool) (p : regex) (s1 s2 : string) :
  all_chars c s1 = true ->
  match_here (exactly c (String.length s1) :: p) (s1 ++ s2)
  = option_map (cons (String.length s1)) (match_here p s2).
Proof.
  intros Hall. cbn [match_here exactly cls rmin rmax].
  now rewrite (span_exact c s1 s2 Hall), try_down_exact, skip_app.
Qed.

End MorePatternFacts.

(** ** [extract_price] and [extract_date] *)

Section ExtractionFacts.
Import Py Re PyDatetime CardDropMonitor.

Lemma Matches_cons_inv (it : item) (p : regex) (s : string) :
  Matches (it :: p) s ->
  exists s1 s2, s = (s1 ++ s2)%string /\ all_chars (cls it) s1 = true
                /\ within it (String.length s1) /\ Matches p s2.
Proof. inversion 1; subst. eauto 6. Qed.

Lemma Matches_nil_inv (s : string) : Matches [] s -> s = EmptyString.
Proof. now inversion 1. Qed.

Lemma match_here_fixed (c : ascii -> bool) (n : nat) (p : regex) (s1 s2 : string) :
  String.length s1 = n -> all_chars c s1 = true ->
  match_here (exactly c n :: p) (s1 ++ s2)
  = option_map (cons n) (match_here p s2).
Proof. intros <-. apply match_here_exactly. Qed.

Lemma search_here (p : regex) (s : string) (ls : list nat) :
  match_here p s = Some ls -> search p s = Some (s, ls).
Proof. intros H. destruct s; simpl; now rewrite H. Qed.

Lemma remove_comma_digits (s : string) :
  any_char is_digit (remove_char "," s) = any_char is_digit s.
Proof.
  induction s as [|a s IH]; simpl; auto.
  destruct (Ascii.eqb_spec a ","); subst; simpl; now rewrite IH.
Qed.

Lemma match_here_price_digit (a : ascii) (t : string) :
  is_digit a = true -> match_here price_pattern (String a t) <> None.
Proof.
  intros Hd.
  assert (Hdollar : is_char "$" a = false).
  { unfold is_char. destruct (Ascii.eqb_spec a "$"); subst; auto. }
  set (n := span is_digit None (String a t)).
  destruct (match_here [opt (is_char "."); star is_digit] (skip n (String a t)))
    as [ls|] eqn:E.
  2:{ exfalso. revert E. apply optional_items_match. repeat constructor. }
  assert (H1 : match_here [plus is_digit; opt (is_char "."); star is_digit] (String a t)
               = Some (n :: ls)).
  { apply (match_here_longest (plus is_digit)); [|exact E].
    cbn [plus rmin cls rmax span]. rewrite Hd. lia. }
  assert (H0 : span (cls (opt (is_char "$"))) (rmax (opt (is_char "$"))) (String a t) = O).
  { cbn [opt cls rmax span]. now rewrite Hdollar. }
  unfold price_pattern.
  rewrite (match_here_longest (opt (is_char "$")) _ _ (n :: ls)); rewrite H0.
  - discriminate.
  - cbn [opt rmin]. lia.
  - exact H1.
Qed.

Lemma search_price_digit (t : string) :
  any_char is_digit t = true -> search price_pattern t <> None.
Proof.
  induction t as [|a t IH]; [discriminate|].
  cbn [search any_char]. intros H.
  destruct (match_here price_pattern (String a t)) as [ls|] eqn:E; [discriminate|].
  destruct (is_digit a) eqn:Hd.
  - exfalso. revert E. now apply match_here_price_digit.
  - apply IH. exact H.
Qed.

Lemma inside_any (c : ascii -> bool) (pre s post : string) :
  any_char c s = true -> any_char c (pre ++ s ++ post) = true.
Proof.
  intros H. rewrite !any_char_app, H. simpl. apply orb_true_r.
Qed.

(** X1: [extract_price] gives [None] exactly for the texts without a
    digit; any text with a digit yields a price. *)
Theorem extract_price_none_iff (text : string) :
  extract_price text = None <-> any_char is_digit text = false.
Proof.
  unfold extract_price. split.
  - destruct (search price_pattern (remove_char "," text)) as [m|] eqn:E;
      [discriminate|]. intros _.
    destruct (any_char is_digit text) eqn:Hd; auto.
    exfalso. revert E. apply search_price_digit.
    now rewrite remove_comma_digits.
  - intros Hd.
    destruct (search price_pattern (remove_char "," text)) as [m|] eqn:E; auto.
    exfalso.
    pose proof (search_group0_Matches _ _ _ E) as Hm.
    destruct (search_group0_inside _ _ _ E) as (pre & post & Heq).
    assert (Hg : any_char is_digit (group0 m) = true).
    { apply (Matches_needs price_pattern _ (plus is_digit) Hm).
      - simpl. auto.
      - simpl. lia. }
    apply (inside_any _ pre _ post) in Hg. rewrite <- Heq in Hg.
    rewrite remove_comma_digits in Hg. congruence.
Qed.

Lemma digit_val_nonneg (a : ascii) : is_digit a = true -> 0 <= digit_val a.
Proof.
  destruct a as [[] [] [] [] [] [] [] []]; cbv; intros; congruence.
Qed.

Lemma decimal_value_nonneg (s : string) (num : Z) (den : positive) (frac : bool) :
  0 <= num -> 0 <= fst (decimal_value s num den frac).
Proof.
  revert num den frac; induction s as [|a s IH]; intros num den frac H; simpl; auto.
  destruct (is_digit a) eqn:Hd.
  - apply IH. pose proof (digit_val_nonneg a Hd). lia.
  - now apply IH.
Qed.

(** X2: a price that [extract_price] returns is never negative. *)
Theorem extract_price_nonneg (text : string) (q : Q) :
  extract_price text = Some q -> Qle 0 q.
Proof.
  unfold extract_price.
  destruct (search price_pattern (remove_char "," text)) as [m|]; [|discriminate].
  intros [= <-]. unfold py_float.
  pose proof (decimal_value_nonneg (group_from 1 m) 0 1%positive false (Z.le_refl 0)) as H.
  destruct (decimal_value (group_from 1 m) 0 1 false) as [n d]. simpl in H.
  rewrite Qred_correct. unfold Qle; simpl. lia.
Qed.

Lemma extract_price_nonneg_witness : Qle 0 (Qmake 11999 100).
Proof. apply (extract_price_nonneg "Now $119.99 (was $1,299.00)"). reflexivity. Defined.

(** X3: the date [extract_date] returns is a piece of the text, copied as
    it stands. *)
Theorem extract_date_inside (text s : string) :
  extract_date text = Some s ->
  exists pre post, text = (pre ++ s ++ post)%string.
Proof.
  unfold extract_date, date_patterns; simpl.
  destruct (search pattern_mdy text) as [m1|] eqn:E1.
  { intros [= <-]. eapply search_group0_inside; eauto. }
  destruct (search pattern_month text) as [m2|] eqn:E2.
  { intros [= <-]. eapply search_group0_inside; eauto. }
  destruct (search pattern_iso text) as [m3|] eqn:E3; [|discriminate].
  intros [= <-]. eapply search_group0_inside; eauto.
Qed.

Lemma extract_date_inside_witness :
  exists pre post,
    "Releases 3/15/2025 or 2025-03-15" = (pre ++ "3/15/2025" ++ post)%string.
Proof. apply (extract_date_inside "Releases 3/15/2025 or 2025-03-15"). reflexivity. Defined.

Lemma iso_word_shape (s : string) :
  Matches pattern_iso s ->
  match_here pattern_iso s = Some [4; 1; 2; 1; 2]%nat /\ String.length s = 10%nat.
Proof.
  intros H. unfold pattern_iso in *.
  apply Matches_cons_inv in H. destruct H as (s1 & r1 & -> & A1 & [L1 U1] & H).
  apply Matches_cons_inv in H. destruct H as (s2 & r2 & -> & A2 & [L2 U2] & H).
  apply Matches_cons_inv in H. destruct H as (s3 & r3 & -> & A3 & [L3 U3] & H).
  apply Matches_cons_inv in H. destruct H as (s4 & r4 & -> & A4 & [L4 U4] & H).
  apply Matches_cons_inv in H. destruct H as (s5 & r5 & -> & A5 & [L5 U5] & H).
  apply Matches_nil_inv in H. subst r5.
  cbn [exactly rmin rmax cls] in *.
  split.
  - rewrite (match_here_fixed is_digit 4 _ s1); [|lia|auto].
    rewrite (match_here_fixed (is_char "-") 1 _ s2); [|lia|auto].
    rewrite (match_here_fixed is_digit 2 _ s3); [|lia|auto].
    rewrite (match_here_fixed (is_char "-") 1 _ s4); [|lia|auto].
    rewrite (match_here_fixed is_digit 2 _ s5); [|lia|auto].
    reflexivity.
  - rewrite !append_length. simpl. lia.
Qed.

(** X4: a text that is exactly a date [YYYY-MM-DD] is extracted whole and
    unchanged. *)
Theorem extract_date_iso_fixpoint (s : string) :
  Matches pattern_iso s -> extract_date s = Some s.
Proof.
  intros Hm.
  pose proof (Matches_chars _ _ Hm) as Hchars.
  destruct (iso_word_shape s Hm) as [Hhere Hlen].
  unfold extract_date, date_patterns; cbn [first_match].
  destruct (search pattern_mdy s) as [m1|] eqn:E1.
  { exfalso.
    pose proof (search_group0_Matches _ _ _ E1) as Hm1.
    destruct (search_group0_inside _ _ _ E1) as (pre & post & Heq).
    assert (Hg : any_char (is_char "/") (group0 m1) = true).
    { apply (Matches_needs pattern_mdy _ (exactly (is_char "/") 1) Hm1);
        simpl; auto. }
    apply (inside_any _ pre _ post) in Hg. rewrite <- Heq in Hg.
    assert (Hno : any_char (is_char "/") s = false); [|congruence].
    eapply all_excludes_any; [|exact Hchars].
    intros a. destruct a as [[] [] [] [] [] [] [] []]; cbv; congruence. }
  destruct (search pattern_month s) as [m2|] eqn:E2.
  { exfalso.
    pose proof (search_group0_Matches _ _ _ E2) as Hm2.
    destruct (search_group0_inside _ _ _ E2) as (pre & post & Heq).
    assert (Hg : any_char is_space (group0 m2) = true).
    { apply (Matches_needs pattern_month _ (plus is_space) Hm2);
        simpl; auto. }
    apply (inside_any _ pre _ post) in Hg. rewrite <- Heq in Hg.
    assert (Hno : any_char is_space s = false); [|congruence].
    eapply all_excludes_any; [|exact Hchars].
    intros a. destruct a as [[] [] [] [] [] [] [] []]; cbv; congruence. }
  rewrite (search_here _ _ _ Hhere).
  unfold group0; simpl fst; simpl snd.
  change (total [4; 1; 2; 1; 2]%nat) with 10%nat.
  rewrite <- Hlen. now rewrite take_all.
Qed.

Lemma extract_date_iso_fixpoint_witness : extract_date "2025-03-01" = Some "2025-03-01".
Proof.
  apply extract_date_iso_fixpoint.
  apply (match_here_Matches pattern_iso "2025-03-01" [4; 1; 2; 1; 2]%nat).
  reflexivity.
Defined.

End ExtractionFacts.

(** ** Scraped dates and the keyword filter *)

Section ScrapeFacts.
Import Py Re PyDatetime CardDropMonitor.

Lemma parse_digits_length (n : nat) (acc : Z) (s : string) (v : Z) (rest : string) :
  parse_digits n acc s = Some (v, rest) ->
  String.length s = (n + String.length rest)%nat.
Proof.
  intros H. destruct (parse_digits_inv _ _ _ _ _ H) as (pre & -> & <-).
  apply append_length.
Qed.

(** A ten-character string that [fromisoformat] accepts is read as
    midnight, without a time zone. *)
Lemma fromisoformat_date_only (s : string) (dt : datetime) :
  String.length s = 10%nat -> fromisoformat s = Some dt ->
  hour dt = 0 /\ minute dt = 0 /\ second dt = 0 /\ microsecond dt = 0
  /\ tzinfo dt = None.
Proof.
  intros Hlen. unfold fromisoformat.
  destruct (parse_digits 4 0 s) as [[y s1]|] eqn:E1; [|discriminate].
  destruct (expect "-" s1) as [s2|] eqn:E2; [|discriminate].
  destruct (parse_digits 2 0 s2) as [[mo s3]|] eqn:E3; [|discriminate].
  destruct (expect "-" s3) as [s4|] eqn:E4; [|discriminate].
  destruct (parse_digits 2 0 s4) as [[d rest]|] eqn:E5; [|discriminate].
  pose proof (parse_digits_length _ _ _ _ _ E1) as L1.
  pose proof (parse_digits_length _ _ _ _ _ E3) as L3.
  pose proof (parse_digits_length _ _ _ _ _ E5) as L5.
  apply expect_inv in E2. apply expect_inv in E4. subst s1 s3. simpl in L1, L3.
  assert (Hrest : String.length rest = O) by lia.
  destruct rest; [|discriminate].
  destruct (valid_fields y mo d 0 0 0 0); [|discriminate].
  intros [= <-]. simpl. auto.
Qed.

(** X5: whatever [extract_date] captured, if [fromisoformat] reads it at
    all it reads it as midnight of that day, naive: a scraped drop never
    carries a time of day. *)
Theorem scraped_date_is_midnight (text s : string) (dt : datetime) :
  extract_date text = Some s -> fromisoformat s = Some dt ->
  hour dt = 0 /\ minute dt = 0 /\ second dt = 0 /\ microsecond dt = 0
  /\ tzinfo dt = None.
Proof.
  intros Hx Hdt.
  destruct (extract_date_cases text s Hx)
    as [[_ Hm]|[(_ & _ & Hm)|(_ & _ & Hm)]].
  - rewrite (dashless_rejected _ _ pattern_mdy_dashless Hm) in Hdt. discriminate.
  - rewrite (dashless_rejected _ _ pattern_month_dashless Hm) in Hdt. discriminate.
  - destruct (iso_word_shape s Hm) as [_ Hlen].
    now apply (fromisoformat_date_only s).
Qed.

Lemma scraped_date_is_midnight_witness :
  hour (Datetime 2025 3 15 0 0 0 0 None) = 0
  /\ minute (Datetime 2025 3 15 0 0 0 0 None) = 0
  /\ second (Datetime 2025 3 15 0 0 0 0 None) = 0
  /\ microsecond (Datetime 2025 3 15 0 0 0 0 None) = 0
  /\ tzinfo (Datetime 2025 3 15 0 0 0 0 None) = None.
Proof.
  apply (scraped_date_is_midnight "Street date 2025-03-15T18:00" "2025-03-15");
    reflexivity.
Defined.

Lemma lower_char_idem (a : ascii) : lower_char (lower_char a) = lower_char a.
Proof. destruct a as [[] [] [] [] [] [] [] []]; reflexivity. Qed.

Lemma lower_idem (s : string) : lower (lower s) = lower s.
Proof.
  induction s as [|a s IH]; simpl; auto. now rewrite lower_char_idem, IH.
Qed.

Lemma lower_app (a b : string) : lower (a ++ b) = (lower a ++ lower b)%string.
Proof. induction a as [|x a IH]; simpl; auto. now rewrite IH. Qed.

Lemma startswith_app (k a b : string) :
  startswith k a = true -> startswith k (a ++ b) = true.
Proof.
  revert a; induction k as [|x k IH]; intros a; simpl; auto.
  destruct a as [|y a]; simpl; [discriminate|].
  rewrite !andb_true_iff. intros [-> H]. auto.
Qed.

Lemma contains_app_l (k a b : string) :
  contains k a = true -> contains k (a ++ b) = true.
Proof.
  induction a as [|y a IH].
  - cbn [contains]. rewrite orb_false_r. intros H.
    destruct k; [|discriminate]. destruct b; reflexivity.
  - cbn [contains append]. rewrite !orb_true_iff. intros [H|H].
    + left. now apply (startswith_app k (String y a) b).
    + right. auto.
Qed.

Lemma contains_app_r (k a b : string) :
  contains k b = true -> contains k (a ++ b) = true.
Proof.
  intros H. induction a as [|y a IH]; simpl append; auto.
  cbn [contains]. rewrite IH. apply orb_true_r.
Qed.

(** X6: the keyword filter ignores letter case: two names and two texts
    that agree once lower-cased get the same answer. *)
Theorem keyword_filter_ignores_case (name1 text1 name2 text2 : string) :
  lower name1 = lower name2 -> lower text1 = lower text2 ->
  is_preorder_or_upcoming name1 text1 = is_preorder_or_upcoming name2 text2.
Proof.
  intros Hn Ht. unfold is_preorder_or_upcoming.
  rewrite !lower_app, Hn, Ht. reflexivity.
Qed.

Lemma keyword_filter_ignores_case_witness :
  is_preorder_or_upcoming "POKEMON ETB" "Pre-Order Now"
  = is_preorder_or_upcoming "pokemon etb" "PRE-ORDER NOW".
Proof. apply keyword_filter_ignores_case; reflexivity. Defined.

(** X7: a product whose name or whose page text holds one of the keywords,
    in any letter case, is kept, whatever the other of the two says. *)
Theorem keyword_in_either_part (name text keyword : string) :
  In keyword keywords ->
  contains keyword (lower name) = true \/ contains keyword (lower text) = true ->
  is_preorder_or_upcoming name text = true.
Proof.
  intros Hk H. unfold is_preorder_or_upcoming.
  apply existsb_exists. exists keyword. split; auto.
  rewrite !lower_app. destruct H as [H|H].
  - now apply contains_app_l.
  - apply contains_app_r. now apply contains_app_r.
Qed.

Lemma keyword_in_either_part_witness :
  is_preorder_or_upcoming "Pokemon 2026 Collection" "In stock" = true.
Proof.
  apply (keyword_in_either_part _ _ "2026").
  - simpl. tauto.
  - left. reflexivity.
Defined.

End ScrapeFacts.

(** ** Saving, looking up and counting drops *)

Section StoreExtras.
Import Py PyDatetime Sqlite World CardDropMonitor WebServer Notions.

Lemma unique_key_row (l : list drops_row) (row : drops_row) (n r u : string) :
  NoDup (map natural_key l) -> In row l -> has_key n r u row = true ->
  filter (has_key n r u) l = [row].
Proof.
  induction l as [|x l IH]; simpl; [tauto|].
  intros Hnd Hin Hk. inversion Hnd as [|? ? Hx Hl]; subst.
  destruct Hin as [->|Hin].
  - rewrite Hk. f_equal. apply filter_none. intros y Hy.
    destruct (has_key n r u y) eqn:Ey; auto.
    exfalso. apply Hx. apply has_key_iff in Hk. apply has_key_iff in Ey.
    rewrite Hk, <- Ey. now apply in_map.
  - destruct (has_key n r u x) eqn:Ex.
    + exfalso. apply Hx. apply has_key_iff in Hk. apply has_key_iff in Ex.
      rewrite Ex, <- Hk. now apply in_map.
    + now apply IH.
Qed.

Lemma save_drop_notifications (drop : listing) (w : world) :
  notifications (db (save_drop drop w)) = notifications (db w).
Proof.
  unfold save_drop; simpl.
  destruct (l_name drop), (l_retailer drop), (l_url drop); reflexivity.
Qed.

(** X8: saving a record touches only the row of its own key. Every row
    with another key is in the table afterwards exactly if it was before;
    the table grows by one row when the key is new and keeps its size when
    the key was stored. *)
Theorem save_drop_frame (w : world) (drop : listing) (n r u : string) :
  store_ok (db w) ->
  l_name drop = Some n -> l_retailer drop = Some r -> l_url drop = Some u ->
  let before := drops (db w) in
  let after := drops (db (save_drop drop w)) in
  (forall row, natural_key row <> (n, r, u) -> (In row after <-> In row before))
  /\ ((exists row, In row before /\ natural_key row = (n, r, u)) ->
      List.length after = List.length before)
  /\ ((forall row, In row before -> natural_key row <> (n, r, u)) ->
      List.length after = S (List.length before)).
Proof.
  intros [_ Hkey] Hn Hr Hu before after.
  destruct (save_drop_row drop w n r u Hn Hr Hu) as [Hrows _].
  cbv zeta in Hrows. fold after before in Hrows.
  pose proof (filter_length (has_key n r u) before) as Hlen.
  assert (Hafter : List.length after
                   = S (List.length (filter (fun row => negb (has_key n r u row)) before))).
  { rewrite Hrows, length_app. simpl. lia. }
  split; [|split].
  - intros row Hne. rewrite Hrows, in_app_iff, filter_In. split.
    + intros [[H _]|[<-|[]]]; auto. exfalso. now apply Hne.
    + intros H. left. split; auto.
      destruct (has_key n r u row) eqn:E; auto.
      apply has_key_iff in E. contradiction.
  - intros (row & Hin & Hk). apply has_key_iff in Hk.
    rewrite (unique_key_row before row n r u Hkey Hin Hk) in Hlen.
    simpl in Hlen. lia.
  - intros Hnone. rewrite filter_none in Hlen; [simpl in Hlen; lia|].
    intros row Hin. destruct (has_key n r u row) eqn:E; auto.
    apply has_key_iff in E. now apply Hnone in E.
Qed.

Lemma save_drop_frame_witness :
  let w := save_drop (Examples.booster "$119.99" "2025-03-01")
             (Examples.fresh Examples.daily_clock) in
  List.length (drops (db (save_drop (Examples.booster "$99" "soon") w)))
  = List.length (drops (db w)).
Proof.
  cbv zeta.
  pose (w := save_drop (Examples.booster "$119.99" "2025-03-01")
               (Examples.fresh Examples.daily_clock)).
  assert (Hok : store_ok (db w)).
  { apply save_drop_ok. split; constructor. }
  destruct (save_drop_frame w (Examples.booster "$99" "soon")
              "Booster Box" "RetailerA" "http://x/1" Hok eq_refl eq_refl eq_refl)
    as (_ & H & _).
  apply H. eexists. split; [left; reflexivity|reflexivity].
Defined.

(** The two outcomes of [save_drop]: a row was written, or (an identity
    field being [None]) the database is as it was. *)
Lemma save_drop_cases (w : world) (drop : listing) :
  (exists n r u,
      l_name drop = Some n /\ l_retailer drop = Some r /\ l_url drop = Some u
      /\ db (save_drop drop w)
         = Database
             (filter (fun row => negb (has_key n r u row)) (drops (db w))
              ++ [DropsRow (next_rowid id (drops_seq (db w)) (drops (db w))) n r u
                    (l_price drop) (l_drop_date drop) None "upcoming"
                    (isoformat (clock w (ticks w)))
                    (isoformat (clock w (S (ticks w)))) 0])
             (next_rowid id (drops_seq (db w)) (drops (db w)))
             (notifications (db w)) (notifications_seq (db w)))
  \/ db (save_drop drop w) = db w.
Proof.
  unfold save_drop; simpl.
  destruct (l_name drop) as [n|], (l_retailer drop) as [r|], (l_url drop) as [u|];
    simpl; try (right; now destruct (db w)).
  left. exists n, r, u. auto.
Qed.

(** X9: ids are never reused. If every id of the table was handed out by
    the counter, this still holds after a save, the counter never goes
    back, and a row that is new after the save has an id above every id
    handed out before. *)
Theorem ids_never_reused (w : world) (drop : listing) :
  ids_bounded (db w) ->
  let w' := save_drop drop w in
  ids_bounded (db w')
  /\ drops_seq (db w) <= drops_seq (db w')
  /\ forall row, In row (drops (db w')) ->
       In row (drops (db w)) \/ drops_seq (db w) < id row.
Proof.
  intros Hb w'. unfold ids_bounded in *.
  destruct (save_drop_cases w drop) as [(n & r & u & _ & _ & _ & E)|E];
    fold w' in E; rewrite E; cbn [drops drops_seq].
  - rewrite Forall_forall in Hb.
    assert (Hnext : drops_seq (db w) < next_rowid id (drops_seq (db w)) (drops (db w))).
    { unfold next_rowid. lia. }
    split; [|split].
    + rewrite Forall_forall. intros row Hin.
      apply in_app_iff in Hin. destruct Hin as [Hin|[<-|[]]].
      * apply filter_In in Hin. destruct Hin as [Hin _]. apply Hb in Hin. lia.
      * simpl. lia.
    + lia.
    + intros row Hin.
      apply in_app_iff in Hin. destruct Hin as [Hin|[<-|[]]].
      * left. apply filter_In in Hin. tauto.
      * right. exact Hnext.
  - split; [exact Hb|]. split; [lia|auto].
Qed.

Lemma ids_never_reused_witness :
  ids_bounded (db (save_drop (Examples.booster "$119.99" "2025-03-01")
                     (Examples.fresh Examples.daily_clock))).
Proof.
  apply (ids_never_reused (Examples.fresh Examples.daily_clock)).
  constructor.
Defined.

(** X10: the lookup route is the inverse of the table. With [id] a primary
    key, the view of a stored row's id returns that row, an id that no row
    has gives the 404 reply, both for ids within the 64-bit range; an id
    outside that range gives the 500 reply. *)
Theorem get_drop_lookup (w : world) :
  NoDup (map id (drops (db w))) ->
  (forall row, In row (drops (db w)) -> sqlite_integer (id row) = true ->
               get_drop_view (id row) w = Found (to_dict row))
  /\ (forall i, sqlite_integer i = true -> ~ In i (map id (drops (db w))) ->
                get_drop_view i w = NotFound)
  /\ (forall i, sqlite_integer i = false -> get_drop_view i w = ServerError).
Proof.
  intros Hid. split; [|split].
  - intros row Hin Hrange. unfold get_drop_view, get_drop. rewrite Hrange.
    now rewrite (filter_id_unique _ row Hid Hin).
  - intros i Hrange Hno. unfold get_drop_view, get_drop. rewrite Hrange.
    rewrite filter_none; auto.
    intros x Hx. destruct (Z.eqb_spec (id x) i) as [E|]; auto.
    exfalso. apply Hno. rewrite <- E. now apply in_map.
  - intros i Hrange. unfold get_drop_view. now rewrite Hrange.
Qed.

Lemma get_drop_lookup_witness :
  let w := save_drop (Examples.booster "$119.99" "2025-03-01")
             (Examples.fresh Examples.daily_clock) in
  get_drop_view 7 w = NotFound
  /\ get_drop_view (2 ^ 63) w = ServerError.
Proof.
  cbv zeta.
  pose (w := save_drop (Examples.booster "$119.99" "2025-03-01")
               (Examples.fresh Examples.daily_clock)).
  assert (Hid : NoDup (map id (drops (db w)))).
  { vm_compute. repeat constructor. simpl. tauto. }
  destruct (get_drop_lookup w Hid) as (_ & H404 & H500).
  split.
  - apply (H404 7); [reflexivity|].
    vm_compute. intros [H|[]]. discriminate.
  - apply (H500 (2 ^ 63)). reflexivity.
Defined.

(** X11: a re-sighting invalidates the id. After a record is saved over a
    stored row with its key, looking up the row's old id gives the 404
    reply, while the notifications recorded under that id stay in the
    log. *)
Theorem resave_orphans_old_id (w : world) (drop : listing) (row : drops_row) :
  NoDup (map id (drops (db w))) ->
  In row (drops (db w)) ->
  l_name drop = Some (product_name row) ->
  l_retailer drop = Some (retailer row) ->
  l_url drop = Some (url row) ->
  get_drop (id row) (save_drop drop w) = NotFound
  /\ notifications (db (save_drop drop w)) = notifications (db w)
  /\ (sqlite_integer (id row) = true ->
      get_drop_view (id row) (save_drop drop w) = NotFound).
Proof.
  intros Hid Hin Hn Hr Hu.
  assert (H404 : get_drop (id row) (save_drop drop w) = NotFound);
    [|split; [exact H404|split; [apply save_drop_notifications|]];
      intros Hrange; unfold get_drop_view; now rewrite Hrange].
  destruct (save_drop_row drop w _ _ _ Hn Hr Hu) as [Hrows _]. cbv zeta in Hrows.
  unfold get_drop. rewrite filter_none; auto.
  intros x Hx. rewrite Hrows in Hx.
  destruct (Z.eqb_spec (id x) (id row)) as [E|]; auto. exfalso.
  apply in_app_iff in Hx. destruct Hx as [Hx|[<-|[]]].
  - apply filter_In in Hx. destruct Hx as [Hx Hk].
    rewrite (NoDup_map_inj id _ _ _ Hid Hx Hin E) in Hk.
    assert (Hrow : has_key (product_name row) (retailer row) (url row) row = true).
    { apply has_key_iff. reflexivity. }
    rewrite Hrow in Hk. discriminate.
  - simpl in E. apply (next_rowid_fresh (drops_seq (db w)) (drops (db w))).
    rewrite E. now apply in_map.
Qed.

Lemma resave_orphans_old_id_witness :
  let drop := Examples.booster "$119.99" "2025-03-01" in
  let w := snd (check_for_alerts
                  (save_drop drop (Examples.fresh (Examples.fixed_clock Examples.noon_feb_22)))) in
  map drop_id (notifications (db w)) = [1]
  /\ get_drop 1 (save_drop drop w) = NotFound.
Proof.
  cbv zeta. split; [reflexivity|].
  pose (drop := Examples.booster "$119.99" "2025-03-01").
  pose (w := snd (check_for_alerts
                    (save_drop drop (Examples.fresh (Examples.fixed_clock Examples.noon_feb_22))))).
  pose (row := DropsRow 1 "Booster Box" "RetailerA" "http://x/1" (extract_price "$119.99")
                 (Some "2025-03-01") None "upcoming" "2025-02-22T12:00:00"
                 "2025-02-22T12:00:00" 1).
  assert (Hid : NoDup (map id (drops (db w)))).
  { vm_compute. repeat constructor. simpl. tauto. }
  assert (Hin : In row (drops (db w))) by (vm_compute; auto).
  exact (proj1 (resave_orphans_old_id w drop row Hid Hin eq_refl eq_refl eq_refl)).
Defined.

End StoreExtras.

(** ** The two alert passes *)

Section AlertExtras.
Import Py PyDatetime Sqlite World CardDropMonitor DesktopNotifier WebServer Notions.

Ltac alert_cases drop s dt diff :=
  cbn [alerts_loop];
  destruct (d_drop_date drop) as [s|] eqn:Edate;
  [ destruct (negb (String.eqb s "") && (d_notified drop =? 0))%bool eqn:Econd;
    [ destruct (fromisoformat s) as [dt|] eqn:Eparse;
      [ cbn [now];
        match goal with
        | |- context [sub dt ?t] =>
            destruct (sub dt t) as [diff|] eqn:Esub;
            [ cbv zeta;
              destruct ((0 <=? days diff) && (days diff <=? 7))%bool eqn:Ewin | ]
        end
      | ]
    | ]
  | ].

(** The pass appends to the log and leaves the AUTOINCREMENT counter of
    [drops] alone. *)
Lemma alerts_loop_log (ds : list drop_dict) (w : world) :
  drops_seq (db (snd (alerts_loop ds w))) = drops_seq (db w)
  /\ exists new,
       notifications (db (snd (alerts_loop ds w))) = notifications (db w) ++ new
       /\ map log_entry new
          = map (fun d => (d_id d, "7-day-alert")) (fst (alerts_loop ds w)).
Proof.
  revert w; induction ds as [|drop rest IH]; intros w.
  - simpl. split; auto. exists []. now rewrite app_nil_r.
  - alert_cases drop s dt diff; try apply IH.
    + match goal with
      | |- context [alerts_loop rest ?w1] =>
          destruct (IH w1) as (H1 & new & H2 & H3);
          destruct (alerts_loop rest w1) as [alerts w2] eqn:E
      end.
      cbn [fst snd map] in *. split; [exact H1|].
      eexists (_ :: new). split.
      * rewrite H2. cbn [mark_as_notified now set_db db notifications
                         insert_notification set_notified].
        rewrite <- app_assoc. reflexivity.
      * cbn [map log_entry drop_id notification_type]. now rewrite H3.
    + match goal with
      | |- context [alerts_loop rest ?w1] => exact (IH w1)
      end.
    + match goal with
      | |- context [alerts_loop rest ?w1] => exact (IH w1)
      end.
Qed.

(** X12: [check_for_alerts] keeps its log in step with what it returns. It
    removes nothing from [notifications] and appends one row of type
    '7-day-alert' per returned drop, in the order returned, under that
    drop's id. *)
Theorem alerts_are_logged (w : world) :
  exists new,
    notifications (db (snd (check_for_alerts w))) = notifications (db w) ++ new
    /\ map log_entry new
       = map (fun d => (d_id d, "7-day-alert")) (fst (check_for_alerts w)).
Proof.
  unfold check_for_alerts.
  destruct (alerts_loop_log (get_all_drops "upcoming" w) w) as [_ H].
  exact H.
Qed.

Lemma days_window (diff : timedelta) :
  0 <= days diff <= 7 <-> 0 <= diff < td_days 8.
Proof.
  unfold days, td_days.
  assert (HD : US_PER_DAY = 86400000000) by reflexivity.
  rewrite HD.
  pose proof (Z.div_mod diff 86400000000) as Hdm.
  pose proof (Z.mod_pos_bound diff 86400000000) as Hmod.
  lia.
Qed.

(** X13: the "7-day" alert window is eight days wide and closed to the
    past. A drop that is alerted was, at some reading of the clock, at
    most 8 days (exclusive) ahead and not behind; an upcoming stored drop
    that is not notified, whose date parses and lies in that range at
    every reading, is alerted. *)
Theorem alert_window_is_eight_days (w : world) :
  (forall d, In d (fst (check_for_alerts w)) ->
     exists s dt n diff,
       d_drop_date d = Some s /\ fromisoformat s = Some dt
       /\ sub dt (clock w n) = Some diff /\ 0 <= diff < td_days 8)
  /\ (forall row s dt,
        In row (drops (db w)) -> status row = "upcoming" -> notified row = 0 ->
        drop_date row = Some s -> fromisoformat s = Some dt ->
        (forall n, exists diff,
            sub dt (clock w n) = Some diff /\ 0 <= diff < td_days 8) ->
        In (to_dict row) (fst (check_for_alerts w))).
Proof.
  split.
  - intros d Hd. apply alerts_loop_sound in Hd.
    destruct Hd as (_ & _ & s & dt & n & diff & H1 & H2 & H3 & H4).
    exists s, dt, n, diff. repeat split; auto; now apply days_window.
  - intros row s dt Hin Hst Hn Hs Hdt Hwin. unfold check_for_alerts.
    apply (alerts_loop_complete _ _ _ s dt); auto.
    + apply get_all_drops_in. eauto.
    + intros n. destruct (Hwin n) as (diff & H1 & H2).
      exists diff. split; auto. now apply days_window.
Qed.

(** X14: a stored date with a UTC offset never alerts and never notifies.
    The clock being naive, the subtraction raises and both loops swallow
    it. *)
Theorem aware_date_never_fires (w : world) (row : drops_row) (s : string)
    (dt : datetime) (off : Z) :
  NoDup (map id (drops (db w))) ->
  (forall n, tzinfo (clock w n) = None) ->
  In row (drops (db w)) ->
  drop_date row = Some s -> fromisoformat s = Some dt -> tzinfo dt = Some off ->
  ~ In (to_dict row) (fst (check_for_alerts w))
  /\ forall t, ~ In (id row, t) (fst (check_upcoming_drops w)).
Proof.
  intros Hid Hclk Hin Hs Hdt Htz.
  assert (Hsub : forall n, sub dt (clock w n) = None).
  { intros n. unfold sub. now rewrite Htz, Hclk. }
  split.
  - intros Hal. apply alerts_loop_sound in Hal.
    destruct Hal as (_ & _ & s' & dt' & n & diff & Hs' & Hdt' & Hsub' & _).
    cbn [to_dict d_drop_date] in Hs'.
    assert (s' = s) by congruence; subst s'.
    assert (dt' = dt) by congruence; subst dt'.
    rewrite Hsub in Hsub'. discriminate.
  - intros t Ht. unfold check_upcoming_drops in Ht; cbn [now fst] in Ht.
    apply notify_loop_in in Ht. destruct Ht as (r & H1 & H2 & H3).
    apply select_by_status_in in H1. destruct H1 as [H1 _].
    rewrite (NoDup_map_inj id _ _ _ Hid H1 Hin H2) in H3.
    unfold process_drop in H3. rewrite Hs in H3.
    destruct (String.eqb s ""); [discriminate|].
    rewrite Hdt, Hsub in H3. discriminate.
Qed.

Lemma aware_date_never_fires_witness :
  let drop := Listing (Some "Booster Box") (Some "RetailerA") (Some "http://x/1")
                None (Some "2025-03-01T00:00:00+00:00") in
  let w := save_drop drop (Examples.fresh (Examples.fixed_clock Examples.noon_feb_22)) in
  ~ In (1, DropNextWeek) (fst (check_upcoming_drops w)).
Proof.
  cbv zeta.
  pose (drop := Listing (Some "Booster Box") (Some "RetailerA") (Some "http://x/1")
                  None (Some "2025-03-01T00:00:00+00:00")).
  pose (w := save_drop drop (Examples.fresh (Examples.fixed_clock Examples.noon_feb_22))).
  pose (row := DropsRow 1 "Booster Box" "RetailerA" "http://x/1" None
                 (Some "2025-03-01T00:00:00+00:00") None "upcoming"
                 "2025-02-22T12:00:00" "2025-02-22T12:00:00" 0).
  assert (Hid : NoDup (map id (drops (db w)))).
  { vm_compute. repeat constructor. simpl. tauto. }
  assert (Hclk : forall n, tzinfo (clock w n) = None) by reflexivity.
  assert (Hin : In row (drops (db w))) by (vm_compute; auto).
  exact (proj2 (aware_date_never_fires w row _ (Datetime 2025 3 1 0 0 0 0 (Some 0)) 0
                  Hid Hclk Hin eq_refl eq_refl eq_refl) DropNextWeek).
Defined.

Lemma notification_for_bound (diff : timedelta) (t : title) :
  notification_for diff = Some t -> td_hours (-1) < diff < td_days 7 /\ diff <> 0.
Proof.
  unfold notification_for, td_hours, td_days, US_PER_DAY, US_PER_HOUR, US_PER_SECOND.
  repeat match goal with
         | |- context [?a <? ?b] => destruct (Z.ltb_spec a b)
         end; cbn [andb]; intros Heq; try discriminate; lia.
Qed.

(** X15: the desktop notifier only speaks about upcoming drops close to
    their date. Each notification it sends is for a stored row with status
    'upcoming' whose date parses and lies strictly between one hour behind
    and seven days ahead of the clock reading, and not exactly at it. *)
Theorem desktop_notifications_sound (w : world) (i : Z) (t : title) :
  In (i, t) (fst (check_upcoming_drops w)) ->
  exists row s dt diff,
    In row (drops (db w)) /\ id row = i /\ status row = "upcoming"
    /\ drop_date row = Some s /\ fromisoformat s = Some dt
    /\ sub dt (clock w (ticks w)) = Some diff
    /\ td_hours (-1) < diff < td_days 7 /\ diff <> 0.
Proof.
  unfold check_upcoming_drops; cbn [now fst]. intros H.
  apply notify_loop_in in H. destruct H as (row & H1 & H2 & H3).
  apply select_by_status_in in H1. destruct H1 as [Hin Hst].
  unfold process_drop in H3.
  destruct (drop_date row) as [s|] eqn:Hs; [|discriminate].
  destruct (String.eqb s ""); [discriminate|].
  destruct (fromisoformat s) as [dt|] eqn:Hdt; [|discriminate].
  destruct (sub dt (clock w (ticks w))) as [diff|] eqn:Hsub; [|discriminate].
  apply notification_for_bound in H3.
  exists row, s, dt, diff. tauto.
Qed.

Lemma desktop_notifications_sound_witness :
  exists row s dt diff,
    In row (drops (db (save_drop (Examples.booster "$119.99" "2025-03-01")
                         (Examples.fresh (Examples.fixed_clock Examples.noon_feb_22)))))
    /\ id row = 1 /\ status row = "upcoming"
    /\ drop_date row = Some s /\ fromisoformat s = Some dt
    /\ sub dt Examples.noon_feb_22 = Some diff
    /\ td_hours (-1) < diff < td_days 7 /\ diff <> 0.
Proof.
  apply (desktop_notifications_sound
           (save_drop (Examples.booster "$119.99" "2025-03-01")
              (Examples.fresh (Examples.fixed_clock Examples.noon_feb_22)))
           1 DropNextWeek).
  vm_compute. auto.
Defined.

Lemma mark_rows_unmarked (ids : list Z) (rows : list drops_row) (row : drops_row) :
  In row (mark_rows ids rows) -> notified row = 0 ->
  In row rows /\ mem (id row) ids = false.
Proof.
  unfold mark_rows. rewrite in_map_iff. intros (r & Hr & Hin) Hn.
  destruct (mem (id r) ids) eqn:Em; subst row.
  - discriminate.
  - auto.
Qed.

(** X16: asking for the alerts consumes them. With the clock standing
    still, a second [GET /api/alerts] right after the first returns an
    empty list: every drop the first call returned was marked by it. *)
Theorem get_alerts_drains (w : world) :
  (forall n m, clock w n = clock w m) ->
  fst (get_alerts (snd (get_alerts w))) = ([], O).
Proof.
  intros Hfrozen.
  assert (Hempty : fst (check_for_alerts (snd (check_for_alerts w))) = []).
  { destruct (fst (check_for_alerts (snd (check_for_alerts w)))) as [|d rest] eqn:E; auto.
    exfalso.
    assert (Hd : In d (fst (check_for_alerts (snd (check_for_alerts w)))))
      by (rewrite E; now left).
    pose proof Hd as Hs. apply alerts_loop_sound in Hs.
    destruct Hs as (Hget & Hn & s & dt & n & diff & Hs & Hdt & Hsub & Hwin).
    apply get_all_drops_in in Hget. destruct Hget as (row & Hrow & Hst & ->).
    destruct (alerts_loop_rows (get_all_drops "upcoming" w) w) as [Hrows Hclock].
    fold (check_for_alerts w) in Hrows, Hclock.
    rewrite Hrows in Hrow. rewrite Hclock in Hsub.
    destruct (mark_rows_unmarked _ _ _ Hrow Hn) as [Hin Hmem].
    assert (Hfirst : In (to_dict row) (fst (check_for_alerts w))).
    { unfold check_for_alerts. apply (alerts_loop_complete _ _ _ s dt); auto.
      - apply get_all_drops_in. eauto.
      - intros k. exists diff. rewrite (Hfrozen k n). auto. }
    assert (Hmem' : mem (id row) (map d_id (fst (check_for_alerts w))) = true).
    { apply mem_in. apply in_map_iff. exists (to_dict row). auto. }
    congruence. }
  unfold get_alerts.
  destruct (check_for_alerts w) as [a1 w1] eqn:E1. cbn [snd].
  cbn [snd] in Hempty.
  destruct (check_for_alerts w1) as [a2 w2] eqn:E2. cbn [fst] in *.
  now subst a2.
Qed.

Lemma get_alerts_drains_witness :
  fst (get_alerts
         (snd (get_alerts
                 (save_drop (Examples.booster "$119.99" "2025-03-01")
                    (Examples.fresh (Examples.fixed_clock Examples.feb_26))))))
  = ([], O).
Proof. apply get_alerts_drains. reflexivity. Defined.

End AlertExtras.

(** ** Statistics, scans and sessions *)

Section SessionFacts.
Import Py PyDatetime Sqlite World CardDropMonitor DesktopNotifier WebServer Notions.

Lemma dict_set_sum (k : string) (d : counts) :
  sum_counts (dict_set k (dict_get k d 0 + 1) d) = sum_counts d + 1.
Proof.
  induction d as [|[k' v'] d IH]; simpl; [lia|].
  destruct (String.eqb k' k); simpl; [lia|]. rewrite IH. lia.
Qed.

Lemma dict_set_keys (k x : string) (v : Z) (d : counts) :
  In x (map fst (dict_set k v d)) <-> x = k \/ In x (map fst d).
Proof.
  induction d as [|[k' v'] d IH]; simpl.
  - intuition.
  - destruct (String.eqb_spec k' k); simpl.
    + subst. intuition.
    + rewrite IH. intuition.
Qed.

Lemma dict_set_nodup (k : string) (v : Z) (d : counts) :
  NoDup (map fst d) -> NoDup (map fst (dict_set k v d)).
Proof.
  induction d as [|[k' v'] d IH]; simpl; intros H.
  - repeat constructor. simpl; tauto.
  - inversion H as [|? ? Hx Hd]; subst.
    destruct (String.eqb_spec k' k); simpl.
    + constructor; auto.
    + constructor; auto. rewrite dict_set_keys. intros [E|E]; auto.
Qed.

Lemma dict_get_set (k x : string) (d : counts) :
  dict_get x (dict_set k (dict_get k d 0 + 1) d) 0
  = dict_get x d 0 + (if String.eqb k x then 1 else 0).
Proof.
  induction d as [|[k' v'] d IH]; simpl.
  - destruct (String.eqb k x); lia.
  - destruct (String.eqb_spec k' k) as [->|Hne]; simpl.
    + destruct (String.eqb k x); lia.
    + destruct (String.eqb_spec k' x) as [->|Hne'].
      * destruct (String.eqb_spec k x); [congruence|lia].
      * apply IH.
Qed.

Lemma tally_fold (ds : list drop_dict) (acc : counts) (r : string) :
  NoDup (map fst acc) ->
  let result := fold_left tally ds acc in
  dict_get r result 0
    = dict_get r acc 0
      + Z.of_nat (List.length (filter (fun d => String.eqb (d_retailer d) r) ds))
  /\ sum_counts result = sum_counts acc + Z.of_nat (List.length ds)
  /\ NoDup (map fst result).
Proof.
  revert acc; induction ds as [|d ds IH]; intros acc Hnd; cbn [fold_left].
  - simpl. repeat split; auto; lia.
  - destruct (IH (tally acc d)) as (H1 & H2 & H3).
    { now apply dict_set_nodup. }
    cbv zeta in *. split; [|split].
    + rewrite H1. unfold tally. rewrite dict_get_set. cbn [filter].
      destruct (String.eqb (d_retailer d) r); cbn [List.length]; lia.
    + rewrite H2. unfold tally. rewrite dict_set_sum. cbn [List.length]. lia.
    + exact H3.
Qed.

Lemma filter_perm_length {A : Type} (f : A -> bool) (l l' : list A) :
  Permutation l l' -> List.length (filter f l) = List.length (filter f l').
Proof.
  induction 1 as [|x l l' _ IH|x y l|l l' l'' _ IH1 _ IH2]; simpl; auto.
  - destruct (f x); simpl; auto.
  - destruct (f x), (f y); reflexivity.
  - congruence.
Qed.

Lemma filter_filter_length {A : Type} (f g : A -> bool) (l : list A) :
  List.length (filter g (filter f l))
  = List.length (filter (fun x => (f x && g x)%bool) l).
Proof.
  induction l as [|x l IH]; simpl; auto.
  destruct (f x); simpl; auto. destruct (g x); simpl; auto.
Qed.

Lemma filter_map_length {A B : Type} (h : A -> B) (g : B -> bool) (l : list A) :
  List.length (filter g (map h l)) = List.length (filter (fun x => g (h x)) l).
Proof.
  induction l as [|x l IH]; simpl; auto. destruct (g (h x)); simpl; auto.
Qed.

(** X17: the statistics count the table. In the reply of [get_stats],
    [by_retailer] gives for each retailer the number of stored upcoming
    rows of that retailer (0 for a retailer it does not list), no retailer
    is listed twice, and the counts add up to [total_drops], the number of
    upcoming rows. *)
Theorem get_stats_counts (w : world) :
  let '(total, by_retailer, _) := fst (get_stats w) in
  (forall r, dict_get r by_retailer 0
             = Z.of_nat (List.length (filter (upcoming_at r) (drops (db w)))))
  /\ NoDup (map fst by_retailer)
  /\ sum_counts by_retailer = Z.of_nat total
  /\ total = List.length
               (filter (fun row => String.eqb (status row) "upcoming") (drops (db w))).
Proof.
  unfold get_stats; cbn [now fst].
  set (ds := get_all_drops "upcoming" w).
  assert (Hlen : forall g : drop_dict -> bool,
             List.length (filter g ds)
             = List.length
                 (filter (fun row => (String.eqb (status row) "upcoming" && g (to_dict row))%bool)
                    (drops (db w)))).
  { intros g. unfold ds, get_all_drops, select_by_status.
    rewrite filter_map_length.
    rewrite (filter_perm_length _ _ _ (order_by_perm by_date_then_newest _)).
    apply filter_filter_length. }
  assert (Htotal : List.length ds
                   = List.length (filter (fun row => String.eqb (status row) "upcoming")
                                    (drops (db w)))).
  { unfold ds, get_all_drops, select_by_status. rewrite length_map.
    apply Permutation_length, order_by_perm. }
  split; [|split; [|split]].
  - intros r.
    destruct (tally_fold ds [] r (NoDup_nil _)) as (H & _ & _).
    change (count_by_retailer ds) with (fold_left tally ds []).
    cbv zeta in H. rewrite H. simpl dict_get.
    rewrite Hlen. reflexivity.
  - destruct (tally_fold ds [] "" (NoDup_nil _)) as (_ & _ & H). exact H.
  - destruct (tally_fold ds [] "" (NoDup_nil _)) as (_ & H & _).
    change (count_by_retailer ds) with (fold_left tally ds []).
    cbv zeta in H. rewrite H. simpl. lia.
  - exact Htotal.
Qed.

Lemma save_all_snoc (scraped : list listing) (drop : listing) (w : world) :
  save_all (scraped ++ [drop]) w = save_drop drop (save_all scraped w).
Proof. unfold save_all. now rewrite fold_left_app. Qed.

Lemma save_all_clock (scraped : list listing) (w : world) :
  clock (save_all scraped w) = clock w.
Proof.
  revert w; induction scraped as [|d ds IH]; intros w; simpl; auto.
  change (clock (save_all ds (save_drop d w)) = clock w).
  now rewrite IH, save_drop_clock.
Qed.

(** X18: every scan alerts again on what it has just seen. If the last
    record of a scan has a date that parses and lies in the alert window
    at every reading of the clock, [run_scan] returns an alert for it,
    whatever the store held before, and hands back the records it was
    given. *)
Theorem run_scan_alerts_again (w : world) (scraped : list listing) (drop : listing)
    (n r u s : string) (dt : datetime) :
  l_name drop = Some n -> l_retailer drop = Some r -> l_url drop = Some u ->
  l_drop_date drop = Some s -> fromisoformat s = Some dt ->
  (forall k, exists diff, sub dt (clock w k) = Some diff /\ 0 <= days diff <= 7) ->
  let '(results, alerts) := fst (run_scan (scraped ++ [drop]) w) in
  results = scraped ++ [drop]
  /\ exists d, In d alerts
               /\ d_name d = n /\ d_retailer d = r /\ d_url d = u
               /\ d_price d = l_price drop /\ d_notified d = 0.
Proof.
  intros Hn Hr Hu Hs Hdt Hwin. unfold run_scan. cbn [now].
  rewrite save_all_snoc.
  set (w0 := save_all scraped (World (db w) (clock w) (S (ticks w)))).
  destruct (check_for_alerts (save_drop drop w0)) as [alerts w'] eqn:E.
  cbn [fst]. split; [reflexivity|].
  destruct (save_drop_row drop w0 n r u Hn Hr Hu) as [Hrows _]. cbv zeta in Hrows.
  set (new := DropsRow (next_rowid id (drops_seq (db w0)) (drops (db w0))) n r u
                (l_price drop) (l_drop_date drop) None "upcoming"
                (isoformat (clock w0 (ticks w0)))
                (isoformat (clock w0 (S (ticks w0)))) 0) in *.
  assert (Hal : In (to_dict new) (fst (check_for_alerts (save_drop drop w0)))).
  { unfold check_for_alerts.
    apply (alerts_loop_complete _ _ _ s dt).
    - apply get_all_drops_in. exists new. split; [|split; reflexivity].
      rewrite Hrows. apply in_or_app. right. left. reflexivity.
    - reflexivity.
    - exact Hs.
    - exact Hdt.
    - intros k. rewrite save_drop_clock. unfold w0. rewrite save_all_clock.
      apply Hwin. }
  rewrite E in Hal. exists (to_dict new). split; [exact Hal|].
  cbn. auto.
Qed.

Lemma run_scan_alerts_again_witness :
  let drop := Examples.booster "$119.99" "2025-03-01" in
  let w := snd (run_scan [drop] (Examples.fresh (Examples.fixed_clock Examples.feb_26))) in
  map notified (drops (db w)) = [1]
  /\ let '(results, alerts) := fst (run_scan ([] ++ [drop]) w) in
     results = [] ++ [drop]
     /\ exists d, In d alerts
                  /\ d_name d = "Booster Box" /\ d_retailer d = "RetailerA"
                  /\ d_url d = "http://x/1"
                  /\ d_price d = l_price drop /\ d_notified d = 0.
Proof.
  cbv zeta. split; [reflexivity|].
  apply (run_scan_alerts_again _ [] (Examples.booster "$119.99" "2025-03-01")
           "Booster Box" "RetailerA" "http://x/1" "2025-03-01"
           (Datetime 2025 3 1 0 0 0 0 None)); try reflexivity.
  intros k. exists (td_days 3). split; [reflexivity|].
  vm_compute. split; discriminate.
Defined.

Lemma mark_rows_keys (ids : list Z) (rows : list drops_row) :
  map natural_key (mark_rows ids rows) = map natural_key rows.
Proof.
  unfold mark_rows. rewrite map_map. apply map_ext.
  intros row. destruct (mem (id row) ids); reflexivity.
Qed.

(** Marking rows and appending alerts to the log keeps a store sound. *)
Lemma marked_session_ok (d d' : database) (ids : list Z)
    (new : list notifications_row) :
  session_ok d ->
  drops d' = mark_rows ids (drops d) ->
  drops_seq d' = drops_seq d ->
  notifications d' = notifications d ++ new ->
  Forall (fun n => notification_type n = "7-day-alert") new ->
  session_ok d'.
Proof.
  intros ([Hid Hkey] & Hb & Hdef & Hlog) Hrows Hseq Hnot Hnew.
  unfold session_ok, store_ok, ids_bounded in *.
  rewrite Hrows, Hseq, Hnot, mark_rows_ids, mark_rows_keys.
  rewrite Forall_forall in Hb, Hdef.
  split; [split; assumption|]. split; [|split].
  - apply Forall_forall. intros row Hin.
    apply in_map_iff in Hin. destruct Hin as (r & <- & Hr).
    specialize (Hb r Hr). destruct (mem (id r) ids); auto.
  - apply Forall_forall. intros row Hin.
    apply in_map_iff in Hin. destruct Hin as (r & <- & Hr).
    destruct (Hdef r Hr) as (H1 & H2 & H3).
    destruct (mem (id r) ids); unfold defaults_kept; cbn; auto.
  - apply Forall_app. auto.
Qed.

Lemma save_drop_session_ok (drop : listing) (w : world) :
  session_ok (db w) -> session_ok (db (save_drop drop w)).
Proof.
  intros (Hok & Hb & Hdef & Hlog).
  pose proof (save_drop_ok drop w Hok) as Hok'.
  destruct (save_drop_cases w drop) as [(n & r & u & _ & _ & _ & E)|E];
    [|rewrite E; repeat split; auto; apply Hok].
  unfold session_ok. split; [exact Hok'|].
  rewrite E. unfold ids_bounded; cbn [drops drops_seq notifications].
  unfold ids_bounded in Hb. rewrite Forall_forall in Hb, Hdef.
  split; [|split]; [| |exact Hlog]; apply Forall_forall.
  - intros row Hin. apply in_app_iff in Hin. destruct Hin as [Hin|[<-|[]]].
    + apply filter_In in Hin. destruct Hin as [Hin _].
      apply Hb in Hin. unfold next_rowid. lia.
    + simpl. lia.
  - intros row Hin. apply in_app_iff in Hin. destruct Hin as [Hin|[<-|[]]].
    + apply filter_In in Hin. apply Hdef. tauto.
    + unfold defaults_kept; cbn. auto.
Qed.

Lemma save_all_session_ok (scraped : list listing) (w : world) :
  session_ok (db w) -> session_ok (db (save_all scraped w)).
Proof.
  revert w; induction scraped as [|d ds IH]; intros w H; simpl; auto.
  apply IH. now apply save_drop_session_ok.
Qed.

Lemma check_for_alerts_session_ok (w : world) :
  session_ok (db w) -> session_ok (db (snd (check_for_alerts w))).
Proof.
  intros H. unfold check_for_alerts.
  destruct (alerts_loop_rows (get_all_drops "upcoming" w) w) as [Hrows _].
  destruct (alerts_loop_log (get_all_drops "upcoming" w) w) as (Hseq & new & Hnot & Hlog).
  apply (marked_session_ok (db w) _ _ new H Hrows Hseq Hnot).
  clear Hnot. revert Hlog.
  generalize (fst (alerts_loop (get_all_drops "upcoming" w) w)) as alerts.
  induction new as [|x new IH]; intros alerts Hlog; constructor.
  - destruct alerts as [|a alerts]; [discriminate|].
    cbn [map log_entry] in Hlog. injection Hlog as H1 H2 H3. exact H2.
  - destruct alerts as [|a alerts]; [discriminate|].
    cbn [map log_entry] in Hlog. injection Hlog as H1 H2 H3.
    now apply (IH alerts).
Qed.

Lemma mark_as_notified_session_ok (i : Z) (w : world) :
  session_ok (db w) -> session_ok (db (mark_as_notified i w)).
Proof.
  intros H.
  apply (marked_session_ok (db w) _ [i]
           [NotificationsRow
              (next_rowid notification_id (notifications_seq (db w)) (notifications (db w)))
              i (isoformat (clock w (ticks w))) "7-day-alert"] H).
  - apply mark_as_notified_rows.
  - reflexivity.
  - reflexivity.
  - repeat constructor.
Qed.

Lemma run_call_session_ok (c : call) (w : world) :
  session_ok (db w) -> session_ok (db (run_call c w)).
Proof.
  intros H. destruct c as [drop|i| | |scraped]; cbn [run_call].
  - now apply save_drop_session_ok.
  - now apply mark_as_notified_session_ok.
  - now apply check_for_alerts_session_ok.
  - exact H.
  - unfold run_scan. cbn [now].
    pose proof (check_for_alerts_session_ok _
                  (save_all_session_ok scraped (World (db w) (clock w) (S (ticks w))) H))
      as H'.
    destruct (check_for_alerts (save_all scraped _)) as [alerts w1]. exact H'.
Qed.

(** X19: what no sequence of calls can do. Starting from the database
    [init_database] creates, after any calls of [save_drop],
    [mark_as_notified], [check_for_alerts], [check_upcoming_drops] and
    [run_scan], in any order: ids and natural keys are unique, every id is
    at most the AUTOINCREMENT counter, every row still has status
    'upcoming', no [drop_time] and [notified] 0 or 1, every log row has
    type '7-day-alert', and [get_all_drops] with any other status than
    'upcoming' returns the empty list. *)
Theorem session_invariant (clk : nat -> datetime) (calls : list call) :
  let w := run_calls calls (Examples.fresh clk) in
  session_ok (db w)
  /\ forall st, st <> "upcoming" -> get_all_drops st w = [].
Proof.
  cbv zeta.
  assert (H : session_ok (db (run_calls calls (Examples.fresh clk)))).
  { assert (H0 : session_ok (db (Examples.fresh clk))).
    { repeat split; constructor. }
    revert H0. generalize (Examples.fresh clk) as w.
    induction calls as [|c cs IH]; intros w H0; simpl; auto.
    apply IH. now apply run_call_session_ok. }
  split; [exact H|].
  intros st Hst. destruct H as (_ & _ & Hdef & _).
  unfold get_all_drops, select_by_status.
  rewrite filter_none; [reflexivity|].
  intros row Hin. rewrite Forall_forall in Hdef.
  destruct (Hdef row Hin) as (Hs & _). rewrite Hs.
  destruct (String.eqb_spec "upcoming" st); congruence.
Qed.

End SessionFacts.
